(** * monitor_multi: the health-check and state-transition engine

    A shallow embedding of [monitor_multi.py]: the application-layer probe
    with its retry loop, the per-URL worker, the dispatch and classification
    loop of [perform_checks], the aggregated report, the state store and the
    run loop of [main].

    Python strings are modelled as sequences of ASCII characters, integers
    as [Z], the state dictionary as a [gmap string string], the insertion
    ordered [details] dictionary as an association list.  Everything the
    program gets from outside (HTTP responses, ping replies, files, the
    clock, the order in which futures complete) is an explicit input; what
    it does to the outside (log records, sleeps, requests, the e-mail, the
    state file) is recorded in a trace of events. *)

From Stdlib Require Import ZArith String Ascii List.
From stdpp Require Import gmap strings list fin_maps sorting pretty.

Open Scope string_scope.
Open Scope list_scope.

(** ** Python strings *)

Module Py.

(** [str(n)] for an integer. *)
Definition str (n : Z) : string := pretty n.

(** Truth value of a string: the empty string is false. *)
Definition truthy (s : string) : bool :=
  match s with
  | EmptyString => false
  | String _ _ => true
  end.

(** [a or b] on strings. *)
Definition or (a b : string) : string := if truthy a then a else b.

(** [s.startswith(p)]. *)
Definition startswith (s p : string) : bool := String.prefix p s.

(** [c.isspace()] for an ASCII character: tab to carriage return, the
    four separators 0x1c-0x1f, and the blank. *)
Definition isspace (c : ascii) : bool :=
  let n := nat_of_ascii c in
  ((9 <=? n)%nat && (n <=? 13)%nat)
  || ((28 <=? n)%nat && (n <=? 31)%nat)
  || (n =? 32)%nat.

Fixpoint lstrip (s : string) : string :=
  match s with
  | EmptyString => EmptyString
  | String c s' => if isspace c then lstrip s' else s
  end.

Fixpoint rstrip (s : string) : string :=
  match s with
  | EmptyString => EmptyString
  | String c s' =>
      match rstrip s' with
      | EmptyString => if isspace c then EmptyString else String c EmptyString
      | r => String c r
      end
  end.

(** [s.strip()]. *)
Definition strip (s : string) : string := rstrip (lstrip s).

(** [sep.join(ls)]. *)
Definition join (sep : string) (ls : list string) : string :=
  String.concat sep ls.

(** The line feed. *)
Definition nl : string := String (ascii_of_nat 10) EmptyString.

(** [range(lo, hi)]. *)
Definition range (lo hi : Z) : list Z :=
  map (fun i => (lo + Z.of_nat i)%Z) (seq 0 (Z.to_nat (hi - lo))).

End Py.

(** ** Configuration

    The module-level constants read from the environment at import time. *)

Record config := {
  URLS_FILE : string;
  CHECK_TIMEOUT : Z;
  HTTP_RETRIES : Z;
  RETRY_DELAY : Z;
  CONCURRENCY : Z;
  SEND_ON_EVERY_FAILURE : bool;
  INTERVAL_SECONDS : Z;
  (** [SMTP_USER], [SMTP_PASS], [EMAIL_FROM] and the recipient list are
      all non-empty. *)
  SMTP_CONFIGURED : bool
}.

Definition default_config : config := {|
  URLS_FILE := "/app/src/urls.txt";
  CHECK_TIMEOUT := 10;
  HTTP_RETRIES := 2;
  RETRY_DELAY := 2;
  CONCURRENCY := 10;
  SEND_ON_EVERY_FAILURE := false;
  INTERVAL_SECONDS := 30 * 60;
  SMTP_CONFIGURED := false
|}.

(** ** Effects: a trace of events and exceptions *)

Inductive event :=
| LogError (msg : string)
| LogInfo (msg : string)
| LogException (msg : string) (exn : string)
| HttpGet (url : string) (timeout : Z)
| Sleep (seconds : Z)
| Ping (host : string)
| SendEmail (subject body : string)
| SmtpDeliver (subject body : string)
| WriteState (st : gmap string string).

(** A call either returns a value or raises an exception (of class
    [Exception]), which is kept as its text [str(e)]. *)
Inductive outcome (A : Type) :=
| Returns (a : A)
| Raises (e : string).
Arguments Returns {A} a.
Arguments Raises {A} e.

Definition M (A : Type) : Type := outcome A * list event.

Definition ret {A} (a : A) : M A := (Returns a, []).
Definition raise {A} (e : string) : M A := (Raises e, []).
Definition emit (ev : event) : M unit := (Returns tt, [ev]).
Definition emits (evs : list event) : M unit := (Returns tt, evs).

Definition bind {A B} (m : M A) (f : A -> M B) : M B :=
  match m with
  | (Returns a, tr) => let (r, tr') := f a in (r, tr ++ tr')
  | (Raises e, tr) => (Raises e, tr)
  end.

(** [try: m  except Exception as e: h e]. *)
Definition try_except {A} (m : M A) (h : string -> M A) : M A :=
  match m with
  | (Returns a, tr) => (Returns a, tr)
  | (Raises e, tr) => let (r, tr') := h e in (r, tr ++ tr')
  end.

Declare Scope py_scope.
Delimit Scope py_scope with py.
Notation "x <- m ;; k" := (bind m (fun x => k))
  (at level 100, m at next level, right associativity) : py_scope.
Notation "m ;;; k" := (bind m (fun _ => k))
  (at level 100, right associativity) : py_scope.
Open Scope py_scope.

(** A file on disk: missing, present but failing when opened or parsed,
    or present with its content. *)
Inductive file (A : Type) :=
| Missing
| Faulty (e : string)
| Content (a : A).
Arguments Missing {A}.
Arguments Faulty {A} e.
Arguments Content {A} a.

(** ** Helpers *)

(** [load_urls]: the lines of the file as [readlines] gives them. *)
Definition load_urls (path : string) (f : file (list string))
    : M (list string) :=
  match f with
  | Missing =>
      emit (LogError ("URLs file not found: " +:+ path)) ;;;
      ret []
  | Faulty e => raise e
  | Content ls =>
      let lines := map Py.strip ls in
      ret (List.filter
             (fun l => Py.truthy l && negb (Py.startswith l "#")) lines)
  end.

(** What one [requests.get] does. *)
Inductive response :=
| Status (status_code : Z)
| ConnFault (e : string)      (** [Timeout] or [ConnectionError] *)
| RequestFault (e : string)   (** any other [RequestException] *)
| OtherFault (e : string).    (** an exception outside [RequestException] *)

(** How the [for] loop of [http_check] is left. *)
Inductive loop_exit :=
| Return (r : bool * Z * string)
| Raise (e : string)
| Fallthrough (last_status : Z) (last_err : string).

Section Prober.

Variable cfg : config.

(** The reply to the request of each attempt, by attempt number. *)
Variable net : Z -> response.

Fixpoint http_check_loop (url : string) (timeout retries : Z)
    (attempts : list Z) (last_status : Z) (last_err : string)
    : loop_exit * list event :=
  match attempts with
  | [] => (Fallthrough last_status last_err, [])
  | attempt :: rest =>
      match net attempt with
      | Status code =>
          let last_status := code in
          if (200 <=? code)%Z && (code <? 300)%Z
          then (Return (true, code, EmptyString), [HttpGet url timeout])
          else (Return (false, code, "HTTP " +:+ Py.str code),
                [HttpGet url timeout])
      | ConnFault e | RequestFault e =>
          let last_err := e in
          let pause :=
            if (attempt <? retries)%Z then [Sleep (RETRY_DELAY cfg)] else [] in
          let (x, tr) :=
            http_check_loop url timeout retries rest last_status last_err in
          (x, HttpGet url timeout :: pause ++ tr)
      | OtherFault e => (Raise e, [HttpGet url timeout])
      end
  end.

Definition http_check (url : string) (timeout retries : Z)
    : M (bool * Z * string) :=
  let last_status := 0%Z in
  let last_err := EmptyString in
  match http_check_loop url timeout retries
          (Py.range 1 (retries + 1)) last_status last_err with
  | (Return r, tr) => (Returns r, tr)
  | (Raise e, tr) => (Raises e, tr)
  | (Fallthrough last_status last_err, tr) =>
      (Returns (false, last_status, Py.or last_err "Unknown error"), tr)
  end.

End Prober.

(** The result dictionary of [check_url]. *)
Record ProbeRes := {
  ok : bool;
  status_code : Z;
  error : string;
  ping : bool
}.

(** What the outside answers to one worker. *)
Record probe_world := {
  (** [requests.utils.urlparse(url).hostname], the empty string standing
      for [None]; parsing may raise. *)
  pw_hostname : outcome string;
  (** whether [ping] exited with 0; [None] when running it raised. *)
  pw_ping : option bool;
  pw_net : Z -> response
}.

Definition icmp_ping (w : probe_world) (host : string) : M bool :=
  try_except
    (emit (Ping host) ;;;
     match pw_ping w with
     | Some b => ret b
     | None => raise "ping"
     end)
    (fun _ => ret false).

Definition check_url (cfg : config) (w : probe_world) (url : string)
    : M (string * ProbeRes) :=
  let url := Py.strip url in
  hostname <- (pw_hostname w, []) ;;
  let host := Py.or hostname url in
  ping_ok <- icmp_ping w host ;;
  r <- http_check cfg (pw_net w) url (CHECK_TIMEOUT cfg) (HTTP_RETRIES cfg) ;;
  let '(ok, status_code, err) := r in
  ret (url, {| ok := ok; status_code := status_code; error := err;
               ping := ping_ok |}).

(** What a run gets from outside: the clock, the world each submitted
    task ([i]-th URL of the list) probes, the time at which each task
    completes, and whether the SMTP dialogue fails. *)
Record run_env := {
  now : string;
  world_of : nat -> probe_world;
  finish_at : nat -> nat;
  smtp_fault : option string
}.

Definition send_email (cfg : config) (env : run_env) (subject body : string)
    : M unit :=
  emit (SendEmail subject body) ;;;
  if negb (SMTP_CONFIGURED cfg) then
    emit (LogError "SMTP not properly configured; skipping email")
  else
    try_except
      (match smtp_fault env with
       | Some e => raise e
       | None =>
           emit (SmtpDeliver subject body) ;;;
           emit (LogInfo ("Email sent: " +:+ subject))
       end)
      (fun e => emit (LogException "Failed to send email" e)).

(** ** State persistence *)

Definition load_state (f : file (gmap string string))
    : M (gmap string string) :=
  r <- try_except
         (match f with
          | Missing => ret None
          | Faulty e => raise e
          | Content st => ret (Some st)
          end)
         (fun e => emit (LogException "Failed to read state file" e) ;;;
                   ret None) ;;
  match r with
  | Some st => ret st
  | None => ret ∅
  end.

(** [write_fault]: the exception of [makedirs], [open] or [json.dump],
    if any. *)
Definition save_state (write_fault : option string)
    (state : gmap string string) : M unit :=
  try_except
    (match write_fault with
     | Some e => raise e
     | None => emit (WriteState state)
     end)
    (fun e => emit (LogException "Failed to write state file" e)).

(** ** Orchestration *)

(** A finished future of the pool: the URL it was submitted for, what
    [fut.result()] gives, and what the worker did. *)
Record future := {
  f_url : string;
  f_result : outcome (string * ProbeRes);
  f_trace : list event
}.

(** [{ex.submit(check_url, u): u for u in urls}] *)
Definition submit_all (cfg : config) (env : run_env) (urls : list string)
    : list future :=
  imap (fun i u =>
          let (r, tr) := check_url cfg (world_of env i) u in
          {| f_url := u; f_result := r; f_trace := tr |})
       urls.

(** The pool finishes the [i]-th submitted task at time [finish_at i];
    which times it reaches depends on its width and on the network. *)
Definition completes_before (a b : nat * future) : Prop :=
  (fst a <= fst b)%nat.

#[global] Instance completes_before_dec a b : Decision (completes_before a b).
Proof. unfold completes_before. apply _. Defined.

(** [concurrent.futures.as_completed]: the futures by completion time. *)
Definition as_completed (finish_at : nat -> nat) (futs : list future)
    : list future :=
  map snd
    (merge_sort completes_before (imap (fun i f => (finish_at i, f)) futs)).

(** An entry of the [details] dictionary. *)
Record detail := {
  d_status : string;
  d_ping : bool;
  d_raw : ProbeRes
}.

(** [d[k] = v] on an insertion-ordered dictionary. *)
Fixpoint dict_set {V} (d : list (string * V)) (k : string) (v : V)
    : list (string * V) :=
  match d with
  | [] => [(k, v)]
  | (k', v') :: d' =>
      if String.eqb k' k then (k', v) :: d' else (k', v') :: dict_set d' k v
  end.

(** [d.get(k)]. *)
Fixpoint dict_get {V} (d : list (string * V)) (k : string) : option V :=
  match d with
  | [] => None
  | (k', v') :: d' => if String.eqb k' k then Some v' else dict_get d' k
  end.

(** The mutable locals of [perform_checks], and the trace so far. *)
Record run_acc := {
  updated_state : gmap string string;
  failures : list (string * string);
  recoveries : list (string * string * string);
  details : list (string * detail);
  log : list event
}.

Definition status_text_of (res : ProbeRes) : string :=
  if ok res then "OK: HTTP " +:+ Py.str (status_code res)
  else "FAIL: " +:+ Py.or (error res) ("HTTP " +:+ Py.str (status_code res)).

(** The alert decision of the failure branch. *)
Definition send_alert_of (cfg : config) (prev : option string)
    (status_text : string) : bool :=
  let send_alert := false in
  if SEND_ON_EVERY_FAILURE cfg then true
  else
    match prev with
    | None => true
    | Some p =>
        if negb (Py.truthy p) then true
        else if Py.startswith p "OK" then true
        else if Py.startswith p "FAIL" && negb (String.eqb p status_text)
             then true
        else send_alert
    end.

(** [prev and prev.startswith("FAIL")]. *)
Definition was_failing (prev : option string) : option string :=
  match prev with
  | Some p => if Py.truthy p && Py.startswith p "FAIL" then Some p else None
  | None => None
  end.

(** What the dispatch boundary makes of [fut.result()]. *)
Definition future_result (fut : future) : string * ProbeRes * list event :=
  let url := f_url fut in
  match f_result fut with
  | Returns (u, res) => (u, res, [])
  | Raises e =>
      (url,
       {| ok := false; status_code := 0; error := e; ping := false |},
       [LogException ("Worker failure for " +:+ url) e])
  end.

(** The body of the [for fut in as_completed(...)] loop.  The events of
    the worker are put in the trace where its result is collected. *)
Definition process_future (cfg : config) (last_state : gmap string string)
    (acc : run_acc) (fut : future) : run_acc :=
  let '(u, res, lg) := future_result fut in
  let status_text := status_text_of res in
  let details :=
    dict_set (details acc) u
      {| d_status := status_text; d_ping := ping res; d_raw := res |} in
  let prev := last_state !! u in
  if ok res then
    let recoveries :=
      match was_failing prev with
      | Some p => recoveries acc ++ [(u, p, status_text)]
      | None => recoveries acc
      end in
    {| updated_state := <[u := "OK"]> (updated_state acc);
       failures := failures acc;
       recoveries := recoveries;
       details := details;
       log := log acc ++ f_trace fut ++ lg |}
  else
    let send_alert := send_alert_of cfg prev status_text in
    let failures :=
      if send_alert then failures acc ++ [(u, status_text)]
      else failures acc in
    {| updated_state := <[u := "FAIL::" +:+ status_text]> (updated_state acc);
       failures := failures;
       recoveries := recoveries acc;
       details := details;
       log := log acc ++ f_trace fut ++ lg |}.

Definition init_acc (last_state : gmap string string) : run_acc :=
  {| updated_state := last_state; failures := []; recoveries := [];
     details := []; log := [] |}.

(** The whole loop over the completed futures. *)
Definition classify_all (cfg : config) (last_state : gmap string string)
    (completed : list future) : run_acc :=
  fold_left (process_future cfg last_state) completed (init_acc last_state).

(** ** The aggregated report *)

Definition ping_flag (p : bool) : string := if p then "OK" else "NO".

Definition detail_ping (details : list (string * detail)) (u : string) : bool :=
  match dict_get details u with
  | Some d => d_ping d
  | None => false
  end.

Definition body_lines (now : string) (acc : run_acc) : list string :=
  let failures := failures acc in
  let recoveries := recoveries acc in
  let details := details acc in
  ["Monitor run time (UTC): " +:+ now; EmptyString; "Summary:"]
  ++ (match failures with
      | [] => []
      | _ =>
          (Py.nl +:+ "Failures (" +:+ Py.str (Z.of_nat (length failures))
           +:+ "):")
          :: map (fun '(u, st) =>
                    "- " +:+ u +:+ " -> " +:+ st +:+ " (ping="
                    +:+ ping_flag (detail_ping details u) +:+ ")")
                 failures
      end)
  ++ (match recoveries with
      | [] => []
      | _ =>
          (Py.nl +:+ "Recoveries (" +:+ Py.str (Z.of_nat (length recoveries))
           +:+ "):")
          :: map (fun '(u, prev, cur) =>
                    "- " +:+ u +:+ " -> RECOVERED (now " +:+ cur +:+ ", prev "
                    +:+ prev +:+ ", ping="
                    +:+ ping_flag (detail_ping details u) +:+ ")")
                 recoveries
      end)
  ++ [Py.nl +:+ "Full details (per-URL):"]
  ++ map (fun '(u, d) =>
            "- " +:+ u +:+ " : " +:+ d_status d +:+ " (ping="
            +:+ ping_flag (d_ping d) +:+ ")")
         details.

Definition subject_of (acc : run_acc) : string :=
  "[ALERT] Monitor: " +:+ Py.str (Z.of_nat (length (failures acc)))
  +:+ " failures, " +:+ Py.str (Z.of_nat (length (recoveries acc)))
  +:+ " recoveries".

(** [if failures or recoveries]. *)
Definition reportable (acc : run_acc) : bool :=
  match failures acc, recoveries acc with
  | [], [] => false
  | _, _ => true
  end.

Definition report (cfg : config) (env : run_env) (acc : run_acc) : M unit :=
  if reportable acc then
    send_email cfg env (subject_of acc)
      (Py.join Py.nl (body_lines (now env) acc))
  else
    emit (LogInfo "No failures or recoveries in this run.").

(** The futures of a run in the order in which the loop sees them. *)
Definition dispatch (cfg : config) (env : run_env) (urls : list string)
    : list future :=
  as_completed (finish_at env) (submit_all cfg env urls).

Definition perform_checks (cfg : config) (env : run_env)
    (urls : list string) (last_state : gmap string string)
    : M (gmap string string) :=
  if (CONCURRENCY cfg <=? 0)%Z then
    (* ThreadPoolExecutor refuses a width that is not positive *)
    raise "max_workers must be greater than 0"
  else
    let acc := classify_all cfg last_state (dispatch cfg env urls) in
    emits (log acc) ;;;
    report cfg env acc ;;;
    ret (updated_state acc).

(** ** Main loop *)

(** What one cycle finds outside. *)
Record cycle := {
  c_urls : file (list string);
  c_state : file (gmap string string);
  c_env : run_env;
  c_write_fault : option string
}.

(** How (far) the process got. *)
Inductive proc_status :=
| Exited
| Crashed (e : string)
| Looping.

Definition run_cycle (cfg : config) (c : cycle) (state : gmap string string)
    : M (gmap string string) :=
  urls <- load_urls (URLS_FILE cfg) (c_urls c) ;;
  state <- perform_checks cfg (c_env c) urls state ;;
  save_state (c_write_fault c) state ;;;
  ret state.

(** The [while True] loop, over the cycles observed. *)
Fixpoint daemon_loop (cfg : config) (cycles : list cycle)
    (state : gmap string string) : list event :=
  match cycles with
  | [] => []
  | c :: rest =>
      Sleep (INTERVAL_SECONDS cfg) ::
      match run_cycle cfg c state with
      | (Returns state', tr) => tr ++ daemon_loop cfg rest state'
      | (Raises e, tr) =>
          tr ++ LogException "Error during monitor loop" e
             :: daemon_loop cfg rest state
      end
  end.

Definition main (cfg : config) (run_once : bool) (first : cycle)
    (later : list cycle) : proc_status * list event :=
  match load_urls (URLS_FILE cfg) (c_urls first) with
  | (Raises e, tr) => (Crashed e, tr)
  | (Returns [], tr) => (Exited, tr ++ [LogError "No URLs to monitor; exiting"])
  | (Returns urls, tr) =>
      match (state <- load_state (c_state first) ;;
             state <- perform_checks cfg (c_env first) urls state ;;
             save_state (c_write_fault first) state ;;;
             ret state) with
      | (Raises e, tr1) => (Crashed e, tr ++ tr1)
      | (Returns state, tr1) =>
          if run_once then (Exited, tr ++ tr1)
          else
            (Looping,
             tr ++ tr1
             ++ LogInfo ("Daemon mode: sleeping "
                         +:+ Py.str (INTERVAL_SECONDS cfg) +:+ " seconds")
             :: daemon_loop cfg later state)
      end
  end.

(** ** Vocabulary of the statements *)

(** The attempt number of the [i]-th iteration of the retry loop. *)
Definition att (i : nat) : Z := (1 + Z.of_nat i)%Z.

(** The request raised an exception that [http_check] catches. *)
Definition caught (r : response) : bool :=
  match r with
  | ConnFault _ | RequestFault _ => true
  | Status _ | OtherFault _ => false
  end.


Definition fault_text (r : response) : string :=
  match r with
  | ConnFault e | RequestFault e | OtherFault e => e
  | Status _ => EmptyString
  end.

Definition is_request (ev : event) : bool :=
  match ev with
  | HttpGet _ _ => true
  | _ => false
  end.

(** Number of requests issued in a trace. *)
Definition requests_made (tr : list event) : nat :=
  length (List.filter is_request tr).

(** [k] failed attempts, each followed by the pause. *)
Fixpoint retry_trace (cfg : config) (url : string) (timeout : Z) (k : nat)
    : list event :=
  match k with
  | O => []
  | S k' =>
      HttpGet url timeout :: Sleep (RETRY_DELAY cfg)
      :: retry_trace cfg url timeout k'
  end.

(** The events of one iteration that ends in a caught exception. *)
Definition iter_trace (cfg : config) (url : string) (timeout retries : Z)
    (j : Z) : list event :=
  HttpGet url timeout
  :: (if (j <? retries)%Z then [Sleep (RETRY_DELAY cfg)] else []).

(** [last_err] after the attempts [pre] all raised a caught exception. *)
Definition last_text (net : Z -> response) (pre : list Z) (le : string)
    : string :=
  fold_left (fun _ j => fault_text (net j)) pre le.

(** What [http_check] returns for a response with status [code]. *)
Definition response_result (code : Z) : bool * Z * string :=
  if (200 <=? code)%Z && (code <? 300)%Z then (true, code, EmptyString)
  else (false, code, "HTTP " +:+ Py.str code).


(** The target, the result and the log record that the loop derives from
    a future. *)
Definition fut_key (fut : future) : string := fst (fst (future_result fut)).
Definition fut_res (fut : future) : ProbeRes := snd (fst (future_result fut)).
Definition fut_log (fut : future) : list event := snd (future_result fut).

(** The state string persisted for a result. *)
Definition new_state_of (res : ProbeRes) : string :=
  if ok res then "OK" else "FAIL::" +:+ status_text_of res.

(** The entries one future adds to [failures] and to [recoveries]. *)
Definition failure_entries (cfg : config) (last_state : gmap string string)
    (fut : future) : list (string * string) :=
  let u := fut_key fut in
  let res := fut_res fut in
  if ok res then []
  else if send_alert_of cfg (last_state !! u) (status_text_of res)
       then [(u, status_text_of res)]
       else [].

Definition recovery_entries (last_state : gmap string string) (fut : future)
    : list (string * string * string) :=
  let u := fut_key fut in
  let res := fut_res fut in
  if ok res then
    match was_failing (last_state !! u) with
    | Some p => [(u, p, status_text_of res)]
    | None => []
    end
  else [].

(** The synthetic result that stands for a worker fault. *)
Definition synthetic_failure (e : string) : ProbeRes :=
  {| ok := false; status_code := 0; error := e; ping := false |}.

Definition stripped (u : string) : Prop := Py.strip u = u.

Definition is_send (ev : event) : bool :=
  match ev with
  | SendEmail _ _ => true
  | _ => false
  end.

Definition is_probe (ev : event) : bool :=
  match ev with
  | HttpGet _ _ | Ping _ => true
  | _ => false
  end.

(** The same configuration with another pool width. *)
Definition with_width (cfg : config) (w : Z) : config :=
  {| URLS_FILE := URLS_FILE cfg;
     CHECK_TIMEOUT := CHECK_TIMEOUT cfg;
     HTTP_RETRIES := HTTP_RETRIES cfg;
     RETRY_DELAY := RETRY_DELAY cfg;
     CONCURRENCY := w;
     SEND_ON_EVERY_FAILURE := SEND_ON_EVERY_FAILURE cfg;
     INTERVAL_SECONDS := INTERVAL_SECONDS cfg;
     SMTP_CONFIGURED := SMTP_CONFIGURED cfg |}.

(** Sample replies used below. *)
Definition net_timeouts : Z -> response := fun _ => ConnFault "timed out".


Definition net_flaky_500 : Z -> response :=
  fun attempt =>
    if (attempt =? 1)%Z then ConnFault "connection reset" else Status 500.

(** Sample worlds and runs. *)
Definition bad_url : string := "http://bad.example".
Definition good_url : string := "http://good.example".

Definition world_500 : probe_world :=
  {| pw_hostname := Returns "bad.example"; pw_ping := Some true;
     pw_net := fun _ => Status 500 |}.

Definition world_200 : probe_world :=
  {| pw_hostname := Returns "good.example"; pw_ping := Some true;
     pw_net := fun _ => Status 200 |}.

Definition world_timeout : probe_world :=
  {| pw_hostname := Returns "bad.example"; pw_ping := Some false;
     pw_net := net_timeouts |}.

Definition world_crash : probe_world :=
  {| pw_hostname := Returns "bad.example"; pw_ping := Some true;
     pw_net := fun _ => OtherFault "boom" |}.

(** The first task probes [w0], every other one [w]. *)
Definition first_then (w0 w : probe_world) : nat -> probe_world :=
  fun i => match i with O => w0 | S _ => w end.

Definition env_of (w : nat -> probe_world) (finish : nat -> nat) : run_env :=
  {| now := "2024-01-01T00:00:00Z"; world_of := w; finish_at := finish;
     smtp_fault := None |}.

Definition in_order : nat -> nat := fun i => i.
Definition reversed : nat -> nat := fun i => (9 - i)%nat.

Definition state_bad_500 : gmap string string :=
  {[ bad_url := "FAIL::FAIL: HTTP 500" ]}.

Definition res_200 : ProbeRes :=
  {| ok := true; status_code := 200; error := EmptyString; ping := true |}.

Definition fut_good (u : string) : future :=
  {| f_url := u; f_result := Returns (u, res_200); f_trace := [] |}.

Definition fut_crash (u : string) : future :=
  {| f_url := u; f_result := Raises "boom"; f_trace := [] |}.

Definition cycle_of (urls : file (list string))
    (w : nat -> probe_world) : cycle :=
  {| c_urls := urls; c_state := Missing; c_env := env_of w in_order;
     c_write_fault := None |}.

(** ** Further vocabulary: the notifier's guard, well-formed states *)

(** [s.split(sep)] for a separator of one character. *)
Fixpoint split_on (sep : ascii) (s : string) : list string :=
  match s with
  | EmptyString => [EmptyString]
  | String c s' =>
      if Ascii.eqb c sep then EmptyString :: split_on sep s'
      else
        match split_on sep s' with
        | [] => [String c EmptyString]
        | piece :: pieces => String c piece :: pieces
        end
  end.

Definition comma : ascii := ascii_of_nat 44.

(** The character occurs in the string. *)
Fixpoint occurs (c : ascii) (s : string) : bool :=
  match s with
  | EmptyString => false
  | String c' s' => Ascii.eqb c' c || occurs c s'
  end.

(** [[r.strip() for r in EMAIL_TO.split(",") if r.strip()]], the
    recipients of [send_email]. *)
Definition recipients_of (EMAIL_TO : string) : list string :=
  map Py.strip
    (List.filter (fun r => Py.truthy (Py.strip r)) (split_on comma EMAIL_TO)).

(** The guard of [send_email] passes:
    [not (not SMTP_USER or not SMTP_PASS or not EMAIL_FROM or not recipients)].
    This is what [SMTP_CONFIGURED] stands for. *)
Definition smtp_ready (SMTP_USER SMTP_PASS EMAIL_FROM EMAIL_TO : string)
    : bool :=
  negb (negb (Py.truthy SMTP_USER)
        || negb (Py.truthy SMTP_PASS)
        || negb (Py.truthy EMAIL_FROM)
        || match recipients_of EMAIL_TO with
           | [] => true
           | _ :: _ => false
           end).

(** A state string as the loop writes it: ["OK"], or ["FAIL::"] followed
    by a status text of a failure, which starts with ["FAIL: "]. *)
Definition state_string_ok (v : string) : Prop :=
  v = "OK" \/ exists d, v = "FAIL::FAIL: " +:+ d.

Definition state_map_ok (st : gmap string string) : Prop :=
  forall k v, st !! k = Some v -> state_string_ok v.

(** What a worker for [url] may do: ping, request the stripped URL with
    the configured timeout, pause for the configured delay. *)
Definition worker_event (cfg : config) (url : string) (ev : event) : Prop :=
  match ev with
  | Ping _ => True
  | HttpGet u t => u = Py.strip url /\ t = CHECK_TIMEOUT cfg
  | Sleep d => d = RETRY_DELAY cfg
  | _ => False
  end.

Definition is_ping (ev : event) : bool :=
  match ev with
  | Ping _ => true
  | _ => false
  end.

Definition is_delivery (ev : event) : bool :=
  match ev with
  | SmtpDeliver _ _ => true
  | _ => false
  end.

Definition is_write (ev : event) : bool :=
  match ev with
  | WriteState _ => true
  | _ => false
  end.

(** The same configuration with another alert policy, or with the SMTP
    settings complete or not. *)
Definition with_policy (cfg : config) (every_failure : bool) : config :=
  {| URLS_FILE := URLS_FILE cfg;
     CHECK_TIMEOUT := CHECK_TIMEOUT cfg;
     HTTP_RETRIES := HTTP_RETRIES cfg;
     RETRY_DELAY := RETRY_DELAY cfg;
     CONCURRENCY := CONCURRENCY cfg;
     SEND_ON_EVERY_FAILURE := every_failure;
     INTERVAL_SECONDS := INTERVAL_SECONDS cfg;
     SMTP_CONFIGURED := SMTP_CONFIGURED cfg |}.



(** The same world with another ping reply. *)
Definition with_ping (w : probe_world) (reply : option bool) : probe_world :=
  {| pw_hostname := pw_hostname w; pw_ping := reply; pw_net := pw_net w |}.

(** The same cycle with another state file. *)
Definition with_state_file (c : cycle) (f : file (gmap string string))
    : cycle :=
  {| c_urls := c_urls c; c_state := f; c_env := c_env c;
     c_write_fault := c_write_fault c |}.

(** The entry of [details] that the loop writes for a future. *)
Definition detail_of (fut : future) : detail :=
  {| d_status := status_text_of (fut_res fut);
     d_ping := ping (fut_res fut);
     d_raw := fut_res fut |}.

(** A one-character string holding the comma. *)
Definition comma_string : string := String comma EmptyString.

Definition res_500 : ProbeRes :=
  {| ok := false; status_code := 500; error := "HTTP 500"; ping := true |}.

Definition fut_bad (u : string) : future :=
  {| f_url := u; f_result := Returns (u, res_500); f_trace := [] |}.

(** * The prober *)

Section ProberFacts.

Variable cfg : config.
Variable net : Z -> response.
Variable url : string.
Variables timeout retries : Z.

Local Abbreviation loop := (http_check_loop cfg net url timeout retries).
Local Abbreviation iter := (iter_trace cfg url timeout retries).

Lemma loop_skip_caught pre rest ls le :
  Forall (fun j => caught (net j) = true) pre ->
  loop (pre ++ rest) ls le =
    (fst (loop rest ls (last_text net pre le)),
     flat_map iter pre ++ snd (loop rest ls (last_text net pre le))).
Proof.
  revert ls le. induction pre as [|j pre IH]; intros ls le Hc.
  - simpl. now destruct (loop rest ls le).
  - inversion Hc as [|? ? Hj Hpre]; subst.
    assert (Hstep : loop ((j :: pre) ++ rest) ls le =
                    (fst (loop (pre ++ rest) ls (fault_text (net j))),
                     iter j
                     ++ snd (loop (pre ++ rest) ls (fault_text (net j))))).
    { unfold iter_trace. cbn [app http_check_loop].
      destruct (net j) as [code|e|e|e]; try discriminate Hj;
        cbn [fault_text];
        now destruct (http_check_loop cfg net url timeout retries
                        (pre ++ rest) ls e). }
    rewrite Hstep, (IH ls (fault_text (net j)) Hpre).
    cbn [fst snd flat_map]. unfold last_text. cbn [fold_left].
    now rewrite <- app_assoc.
Qed.

Lemma range_attempts :
  Py.range 1 (retries + 1) = map att (seq 0 (Z.to_nat retries)).
Proof.
  unfold Py.range. now replace (retries + 1 - 1)%Z with retries by lia.
Qed.

Lemma iter_trace_prefix a k :
  (Z.of_nat (a + k) < retries)%Z ->
  flat_map iter (map att (seq a k)) = retry_trace cfg url timeout k.
Proof.
  revert a. induction k as [|k IH]; intros a Hlt; [reflexivity|].
  cbn [seq map flat_map retry_trace]. unfold iter_trace at 1.
  replace (att a <? retries)%Z with true
    by (symmetry; apply Z.ltb_lt; unfold att; lia).
  cbn [app]. f_equal. f_equal. apply IH. lia.
Qed.

Lemma caught_prefix a k :
  (forall i, (a <= i < a + k)%nat -> caught (net (att i)) = true) ->
  Forall (fun j => caught (net j) = true) (map att (seq a k)).
Proof.
  intros H. apply List.Forall_forall. intros j Hj.
  apply in_map_iff in Hj as [i [<- Hi]]. apply in_seq in Hi. apply H. lia.
Qed.

Lemma requests_made_retry_trace k tl :
  requests_made (retry_trace cfg url timeout k ++ tl)
  = (k + requests_made tl)%nat.
Proof.
  induction k as [|k IH]; [reflexivity|].
  unfold requests_made in *. cbn. now rewrite IH.
Qed.

Lemma http_check_loop_at k :
  (k < Z.to_nat retries)%nat ->
  (forall i, (i < k)%nat -> caught (net (att i)) = true) ->
  exists le,
    loop (Py.range 1 (retries + 1)) 0%Z EmptyString =
      (fst (loop (map att (seq k (Z.to_nat retries - k))) 0%Z le),
       retry_trace cfg url timeout k
       ++ snd (loop (map att (seq k (Z.to_nat retries - k))) 0%Z le)).
Proof.
  intros Hk Hc. rewrite range_attempts.
  assert (Hsplit : seq 0 (Z.to_nat retries)
                   = seq 0 k ++ seq k (Z.to_nat retries - k)).
  { rewrite <- (Nat.add_0_l k) at 2. rewrite <- seq_app. f_equal. lia. }
  rewrite Hsplit, map_app.
  rewrite loop_skip_caught by (apply caught_prefix; intros; apply Hc; lia).
  rewrite iter_trace_prefix by lia. eauto.
Qed.

(** A response at attempt [k + 1] ends the probe there. *)
Lemma http_check_response k code :
  (k < Z.to_nat retries)%nat ->
  (forall i, (i < k)%nat -> caught (net (att i)) = true) ->
  net (att k) = Status code ->
  http_check cfg net url timeout retries =
    (Returns (response_result code),
     retry_trace cfg url timeout k ++ [HttpGet url timeout]).
Proof.
  intros Hk Hc Hn. destruct (http_check_loop_at k Hk Hc) as [le Hl].
  unfold http_check. rewrite Hl.
  replace (Z.to_nat retries - k)%nat with (S (Z.to_nat retries - S k))
    by lia.
  cbn [seq map http_check_loop]. rewrite Hn.
  unfold response_result.
  now destruct ((200 <=? code)%Z && (code <? 300)%Z).
Qed.

(** An exception that is not a [RequestException] leaves the probe. *)
Lemma http_check_other_fault k e :
  (k < Z.to_nat retries)%nat ->
  (forall i, (i < k)%nat -> caught (net (att i)) = true) ->
  net (att k) = OtherFault e ->
  http_check cfg net url timeout retries =
    (Raises e, retry_trace cfg url timeout k ++ [HttpGet url timeout]).
Proof.
  intros Hk Hc Hn. destruct (http_check_loop_at k Hk Hc) as [le Hl].
  unfold http_check. rewrite Hl.
  replace (Z.to_nat retries - k)%nat with (S (Z.to_nat retries - S k))
    by lia.
  cbn [seq map http_check_loop]. now rewrite Hn.
Qed.

(** Caught exceptions at every attempt: the fall-through return. *)
Lemma http_check_exhausted k :
  S k = Z.to_nat retries ->
  (forall i, (i <= k)%nat -> caught (net (att i)) = true) ->
  http_check cfg net url timeout retries =
    (Returns (false, 0%Z, Py.or (fault_text (net (att k))) "Unknown error"),
     retry_trace cfg url timeout k ++ [HttpGet url timeout]).
Proof.
  intros Hk Hc.
  assert (Hk' : (k < Z.to_nat retries)%nat) by lia.
  destruct (http_check_loop_at k Hk') as [le Hl];
    [intros; apply Hc; lia|].
  unfold http_check. rewrite Hl.
  replace (Z.to_nat retries - k)%nat with 1%nat by lia.
  cbn [seq map http_check_loop].
  pose proof (Hc k (Nat.le_refl k)) as Hck.
  replace (att k <? retries)%Z with false
    by (symmetry; apply Z.ltb_ge; unfold att; lia).
  destruct (net (att k)) as [code|e|e|e]; try discriminate Hck;
    reflexivity.
Qed.

(** An attempt limit of zero or less: no request at all. *)
Lemma http_check_no_attempts :
  (retries <= 0)%Z ->
  http_check cfg net url timeout retries =
    (Returns (false, 0%Z, "Unknown error"), []).
Proof.
  intros H. unfold http_check. rewrite range_attempts.
  now replace (Z.to_nat retries) with 0%nat by lia.
Qed.

(** The loop falls through only when every request raised a caught
    exception, and then [last_status] still has its initial value. *)
Lemma loop_fallthrough attempts ls le ls' le' tr :
  loop attempts ls le = (Fallthrough ls' le', tr) ->
  ls' = ls /\ Forall (fun j => caught (net j) = true) attempts.
Proof.
  revert ls le tr. induction attempts as [|a rest IH]; intros ls le tr H.
  - cbn in H. inversion H; subst. now split.
  - cbn [http_check_loop] in H.
    destruct (net a) as [code|e|e|e] eqn:Ea.
    + now destruct ((200 <=? code)%Z && (code <? 300)%Z).
    + destruct (http_check_loop cfg net url timeout retries rest ls e)
        as [x tr0] eqn:El.
      inversion H; subst. apply IH in El as [-> Hall]. split; [easy|].
      constructor; [now rewrite Ea | exact Hall].
    + destruct (http_check_loop cfg net url timeout retries rest ls e)
        as [x tr0] eqn:El.
      inversion H; subst. apply IH in El as [-> Hall]. split; [easy|].
      constructor; [now rewrite Ea | exact Hall].
    + discriminate H.
Qed.


Lemma http_check_trace_is_loop_trace :
  snd (http_check cfg net url timeout retries)
  = snd (loop (Py.range 1 (retries + 1)) 0%Z EmptyString).
Proof.
  unfold http_check.
  now destruct (loop (Py.range 1 (retries + 1)) 0%Z EmptyString)
    as [[r|e|ls le] tr].
Qed.


End ProberFacts.




(** C10: when the retry loop of [http_check] is left by falling through
    (all attempts used up), the status code of the failure returned is 0:
    every attempt raised a caught exception, since a response of any status
    returns from inside the loop. *)
Theorem C10_exhausted_status_is_zero
    (cfg : config) (net : Z -> response) (url : string)
    (timeout retries : Z) (ls : Z) (le : string) (tr : list event) :
  http_check_loop cfg net url timeout retries
    (Py.range 1 (retries + 1)) 0%Z EmptyString = (Fallthrough ls le, tr) ->
  ls = 0%Z
  /\ http_check cfg net url timeout retries
     = (Returns (false, 0%Z, Py.or le "Unknown error"), tr)
  /\ (forall j, (1 <= j <= retries)%Z -> caught (net j) = true).
Proof.
  intros H. pose proof (loop_fallthrough _ _ _ _ _ _ _ _ _ _ _ H) as [-> Hall].
  split; [reflexivity|]. split.
  - unfold http_check. now rewrite H.
  - intros j Hj. rewrite range_attempts in Hall.
    rewrite List.Forall_forall in Hall. apply Hall.
    apply in_map_iff. exists (Z.to_nat (j - 1)). split.
    + unfold att. lia.
    + apply in_seq. lia.
Qed.

Lemma C10_exhausted_status_is_zero_witness :
  http_check_loop default_config net_timeouts bad_url 10 2
    (Py.range 1 (2 + 1)) 0%Z EmptyString
  = (Fallthrough 0 "timed out",
     [HttpGet bad_url 10; Sleep 2; HttpGet bad_url 10])
  /\ http_check default_config net_timeouts bad_url 10 2
     = (Returns (false, 0%Z, "timed out"),
        [HttpGet bad_url 10; Sleep 2; HttpGet bad_url 10]).
Proof.
  assert (H : http_check_loop default_config net_timeouts bad_url 10 2
                (Py.range 1 (2 + 1)) 0%Z EmptyString
              = (Fallthrough 0 "timed out",
                 [HttpGet bad_url 10; Sleep 2; HttpGet bad_url 10]))
    by reflexivity.
  split; [exact H|].
  apply (C10_exhausted_status_is_zero _ _ _ _ _ _ _ _ H).
Defined.

(** * The classification loop *)

Section Classifier.

Variable cfg : config.
Variable last_state : gmap string string.

Local Abbreviation step := (process_future cfg last_state).

(** One iteration, field by field. *)
Lemma process_future_fields acc fut :
  updated_state (step acc fut)
    = <[fut_key fut := new_state_of (fut_res fut)]> (updated_state acc)
  /\ failures (step acc fut)
     = failures acc ++ failure_entries cfg last_state fut
  /\ recoveries (step acc fut)
     = recoveries acc ++ recovery_entries last_state fut
  /\ details (step acc fut)
     = dict_set (details acc) (fut_key fut)
         {| d_status := status_text_of (fut_res fut);
            d_ping := ping (fut_res fut); d_raw := fut_res fut |}
  /\ log (step acc fut) = log acc ++ f_trace fut ++ fut_log fut.
Proof.
  unfold process_future, failure_entries, recovery_entries,
    new_state_of, fut_key, fut_res, fut_log.
  destruct (future_result fut) as [[u res] lg]. cbn [fst snd].
  destruct (ok res).
  - cbn. destruct (was_failing (last_state !! u));
      now rewrite ?app_nil_r.
  - cbn. destruct (send_alert_of cfg (last_state !! u) (status_text_of res));
      now rewrite ?app_nil_r.
Qed.

Lemma fold_failures l acc :
  failures (fold_left step l acc)
  = failures acc ++ flat_map (failure_entries cfg last_state) l.
Proof.
  revert acc. induction l as [|fut l IH]; intros acc; cbn [fold_left flat_map].
  - now rewrite app_nil_r.
  - rewrite IH. destruct (process_future_fields acc fut) as (_ & -> & _).
    now rewrite <- app_assoc.
Qed.

Lemma fold_recoveries l acc :
  recoveries (fold_left step l acc)
  = recoveries acc ++ flat_map (recovery_entries last_state) l.
Proof.
  revert acc. induction l as [|fut l IH]; intros acc; cbn [fold_left flat_map].
  - now rewrite app_nil_r.
  - rewrite IH. destruct (process_future_fields acc fut) as (_ & _ & -> & _).
    now rewrite <- app_assoc.
Qed.

Lemma fold_log l acc :
  log (fold_left step l acc)
  = log acc ++ flat_map (fun fut => f_trace fut ++ fut_log fut) l.
Proof.
  revert acc. induction l as [|fut l IH]; intros acc; cbn [fold_left flat_map].
  - now rewrite app_nil_r.
  - rewrite IH.
    destruct (process_future_fields acc fut) as (_ & _ & _ & _ & ->).
    now rewrite <- !app_assoc.
Qed.

Lemma fold_state l acc :
  updated_state (fold_left step l acc)
  = fold_left (fun m fut => <[fut_key fut := new_state_of (fut_res fut)]> m)
      l (updated_state acc).
Proof.
  revert acc. induction l as [|fut l IH]; intros acc; cbn [fold_left].
  - reflexivity.
  - rewrite IH. now destruct (process_future_fields acc fut) as (-> & _).
Qed.

Lemma fold_state_snoc l fut acc :
  updated_state (fold_left step (l ++ [fut]) acc)
  = <[fut_key fut := new_state_of (fut_res fut)]>
      (updated_state (fold_left step l acc)).
Proof.
  rewrite fold_left_app. cbn [fold_left].
  now destruct (process_future_fields (fold_left step l acc) fut) as (-> & _).
Qed.

(** Entries of targets that the run does not check are left alone. *)
Lemma fold_state_other l acc k :
  ~ In k (map fut_key l) ->
  updated_state (fold_left step l acc) !! k = updated_state acc !! k.
Proof.
  induction l as [|fut l IH] using rev_ind; intros Hk; [reflexivity|].
  rewrite fold_state_snoc. rewrite map_app, in_app_iff in Hk. cbn in Hk.
  rewrite lookup_insert_ne by tauto. apply IH. tauto.
Qed.

Lemma fold_state_dom l acc :
  dom (updated_state (fold_left step l acc))
  = dom (updated_state acc) ∪ list_to_set (map fut_key l).
Proof.
  induction l as [|fut l IH] using rev_ind.
  - cbn. now rewrite union_empty_r_L.
  - rewrite fold_state_snoc, dom_insert_L, IH, map_app. cbn.
    rewrite list_to_set_app_L. cbn. rewrite union_empty_r_L.
    rewrite (union_comm_L {[fut_key fut]}).
    now rewrite union_assoc_L.
Qed.

(** A target all of whose results in the run agree on the state string
    ends with that string. *)
Lemma fold_state_agree l acc k v :
  In k (map fut_key l) ->
  (forall fut, In fut l -> fut_key fut = k ->
               new_state_of (fut_res fut) = v) ->
  updated_state (fold_left step l acc) !! k = Some v.
Proof.
  induction l as [|fut l IH] using rev_ind; intros Hk Hv; [easy|].
  rewrite fold_state_snoc.
  destruct (decide (fut_key fut = k)) as [Heq|Hne].
  - rewrite Heq, lookup_insert_eq. f_equal. apply Hv; [|exact Heq].
    apply in_app_iff. right. now left.
  - rewrite lookup_insert_ne by exact Hne. apply IH.
    + rewrite map_app, in_app_iff in Hk. cbn in Hk. tauto.
    + intros f Hf. apply Hv. apply in_app_iff. now left.
Qed.

(** Swapping two adjacent futures of distinct targets. *)
Lemma state_perm (l1 l2 : list future) (m : gmap string string) :
  Permutation l1 l2 ->
  NoDup (map fut_key l1) ->
  fold_left (fun m fut => <[fut_key fut := new_state_of (fut_res fut)]> m)
    l1 m
  = fold_left (fun m fut => <[fut_key fut := new_state_of (fut_res fut)]> m)
      l2 m.
Proof.
  intros Hp. revert m.
  induction Hp as [|x l l' Hp IH|x y l|l l' l'' Hp1 IH1 Hp2 IH2];
    intros m Hnd.
  - reflexivity.
  - cbn [fold_left]. apply IH. cbn in Hnd. now apply NoDup_cons_1_2 in Hnd.
  - cbn [fold_left]. f_equal. apply insert_insert_ne.
    cbn in Hnd. apply NoDup_cons_1_1 in Hnd.
    intros Heq. apply Hnd. rewrite Heq. left.
  - rewrite IH1 by exact Hnd. apply IH2.
    pose proof (Permutation_map fut_key Hp1) as Hpm.
    now rewrite <- Hpm.
Qed.

End Classifier.

(** * Workers and dispatch *)

Lemma http_check_loop_no_send cfg net url timeout retries attempts ls le :
  forallb (fun ev => negb (is_send ev))
    (snd (http_check_loop cfg net url timeout retries attempts ls le)) = true.
Proof.
  revert ls le.
  induction attempts as [|a rest IH]; intros ls le; [reflexivity|].
  cbn [http_check_loop].
  destruct (net a) as [code|e|e|e].
  - now destruct ((200 <=? code)%Z && (code <? 300)%Z).
  - specialize (IH ls e).
    destruct (http_check_loop cfg net url timeout retries rest ls e) as [x tr].
    cbn [snd] in *. cbn [forallb is_send negb andb].
    rewrite forallb_app, IH. now destruct (a <? retries)%Z.
  - specialize (IH ls e).
    destruct (http_check_loop cfg net url timeout retries rest ls e) as [x tr].
    cbn [snd] in *. cbn [forallb is_send negb andb].
    rewrite forallb_app, IH. now destruct (a <? retries)%Z.
  - reflexivity.
Qed.

Lemma http_check_no_send cfg net url timeout retries :
  forallb (fun ev => negb (is_send ev))
    (snd (http_check cfg net url timeout retries)) = true.
Proof.
  rewrite http_check_trace_is_loop_trace. apply http_check_loop_no_send.
Qed.

(** A worker returns the stripped URL with a result, or raises; it sends
    no e-mail. *)
Lemma check_url_cases cfg w url :
  forallb (fun ev => negb (is_send ev)) (snd (check_url cfg w url)) = true
  /\ ((exists e, fst (check_url cfg w url) = Raises e)
      \/ (exists res, fst (check_url cfg w url) = Returns (Py.strip url, res))).
Proof.
  unfold check_url, icmp_ping, bind, try_except, emit, ret, raise.
  destruct (pw_hostname w) as [h|e]; [|split; [reflexivity|left; eauto]].
  pose proof (http_check_no_send cfg (pw_net w) (Py.strip url)
                (CHECK_TIMEOUT cfg) (HTTP_RETRIES cfg)) as Hns.
  destruct (pw_ping w) as [b|];
    destruct (http_check cfg (pw_net w) (Py.strip url) (CHECK_TIMEOUT cfg)
                (HTTP_RETRIES cfg)) as [[[[o sc] err]|e] tr];
    cbn in *; rewrite ?app_nil_r; (split; [exact Hns|]); eauto.
Qed.

Lemma imap_pair_snd {A B} (g : nat -> B) (l : list A) :
  map snd (imap (fun i x => (g i, x)) l) = l.
Proof.
  revert g. induction l as [|x l IH]; intros g; [reflexivity|].
  cbn. f_equal. apply (IH (g ∘ S)).
Qed.

(** The loop sees every submitted future exactly once, in some order. *)
Lemma as_completed_perm finish futs :
  Permutation (as_completed finish futs) futs.
Proof.
  unfold as_completed.
  rewrite <- (imap_pair_snd finish futs) at 2.
  apply Permutation_map, merge_sort_Permutation.
Qed.

Lemma submit_all_length cfg env urls :
  length (submit_all cfg env urls) = length urls.
Proof. unfold submit_all. apply length_imap. Qed.

(** The submitted futures do not depend on the pool width, nor on the
    completion times. *)
Lemma submit_all_width cfg w env urls :
  submit_all (with_width cfg w) env urls = submit_all cfg env urls.
Proof. reflexivity. Qed.

Lemma submit_all_worlds cfg env1 env2 urls :
  (forall i, world_of env1 i = world_of env2 i) ->
  submit_all cfg env1 urls = submit_all cfg env2 urls.
Proof.
  intros H. unfold submit_all. apply imap_ext. intros i u _. cbn.
  now rewrite H.
Qed.

Lemma fut_key_submitted cfg w u :
  stripped u ->
  fut_key (let (r, tr) := check_url cfg w u in
           {| f_url := u; f_result := r; f_trace := tr |}) = u.
Proof.
  intros Hs. destruct (check_url_cases cfg w u) as [_ [[e He]|[res He]]];
    destruct (check_url cfg w u) as [r tr]; cbn in He; subst r;
    unfold fut_key, future_result; cbn; [reflexivity | exact Hs].
Qed.

(** For stripped URLs, the targets of the futures are the URLs. *)
Lemma submit_all_keys cfg env urls :
  Forall stripped urls ->
  map fut_key (submit_all cfg env urls) = urls.
Proof.
  unfold submit_all. generalize (world_of env). intros wo Hs. revert wo.
  induction Hs as [|u urls Hu Hs IH]; intros wo; [reflexivity|].
  cbn [imap map]. rewrite fut_key_submitted by exact Hu. f_equal.
  apply (IH (wo ∘ S)).
Qed.

Lemma dispatch_keys cfg env urls :
  Forall stripped urls ->
  Permutation (map fut_key (dispatch cfg env urls)) urls.
Proof.
  intros Hs. unfold dispatch.
  rewrite (Permutation_map fut_key (as_completed_perm _ _)).
  now rewrite submit_all_keys.
Qed.

(** Stripping. *)
Lemma lstrip_head c s :
  Py.isspace c = false -> Py.lstrip (String c s) = String c s.
Proof. intros H. cbn. now rewrite H. Qed.

Lemma lstrip_cases s :
  Py.lstrip s = EmptyString
  \/ exists c s', Py.lstrip s = String c s' /\ Py.isspace c = false.
Proof.
  induction s as [|c s IH]; [now left|].
  cbn. destruct (Py.isspace c) eqn:E; [exact IH|]. right. eauto.
Qed.

Lemma rstrip_head c s :
  Py.isspace c = false -> exists s', Py.rstrip (String c s) = String c s'.
Proof.
  intros H. cbn. destruct (Py.rstrip s); [rewrite H|]; eauto.
Qed.

Lemma rstrip_idem s : Py.rstrip (Py.rstrip s) = Py.rstrip s.
Proof.
  induction s as [|c s IH]; [reflexivity|].
  cbn [Py.rstrip]. destruct (Py.rstrip s) as [|c' r] eqn:E.
  - destruct (Py.isspace c) eqn:Ec; [reflexivity|]. cbn. now rewrite Ec.
  - cbn [Py.rstrip] in *. now rewrite IH.
Qed.

Lemma strip_idem s : Py.strip (Py.strip s) = Py.strip s.
Proof.
  unfold Py.strip.
  destruct (lstrip_cases s) as [->|(c & s' & -> & Hc)]; [reflexivity|].
  destruct (rstrip_head c s' Hc) as [r Hr].
  rewrite Hr, (lstrip_head c r Hc), <- Hr. apply rstrip_idem.
Qed.

(** [load_urls] yields stripped, non-empty lines that are no comments, and
    never raises for a missing file. *)
Lemma load_urls_stripped path f urls tr :
  load_urls path f = (Returns urls, tr) -> Forall stripped urls.
Proof.
  destruct f as [|e|ls]; cbn; intros H; inversion H; subst; [constructor|].
  apply Forall_forall. intros u Hu. apply list_elem_of_In in Hu.
  apply filter_In in Hu as [Hu _]. apply in_map_iff in Hu as [l [<- _]].
  apply strip_idem.
Qed.

(** * The report and the run *)

Lemma send_email_returns cfg env subject body :
  fst (send_email cfg env subject body) = Returns tt
  /\ List.filter is_send (snd (send_email cfg env subject body))
     = [SendEmail subject body].
Proof.
  unfold send_email, bind, try_except, emit, raise.
  destruct (SMTP_CONFIGURED cfg); cbn; [|now split].
  destruct (smtp_fault env); cbn; now split.
Qed.

Lemma report_returns cfg env acc :
  fst (report cfg env acc) = Returns tt.
Proof.
  unfold report. destruct (reportable acc); [|reflexivity].
  apply send_email_returns.
Qed.

Lemma filter_none {A} (p : A -> bool) (l : list A) :
  forallb (fun x => negb (p x)) l = true -> List.filter p l = [].
Proof.
  induction l as [|x l IH]; [reflexivity|]. cbn.
  destruct (p x); cbn; [discriminate|exact IH].
Qed.

Lemma submit_all_no_send cfg env urls fut :
  In fut (submit_all cfg env urls) ->
  forallb (fun ev => negb (is_send ev)) (f_trace fut ++ fut_log fut) = true.
Proof.
  unfold submit_all. generalize (world_of env). intros wo. revert wo.
  induction urls as [|u urls IH]; intros wo Hin; [destruct Hin|].
  cbn [imap] in Hin. destruct Hin as [<-|Hin]; [|exact (IH _ Hin)].
  destruct (check_url_cases cfg (wo 0%nat) u) as [Hns _].
  destruct (check_url cfg (wo 0%nat) u) as [r tr]. cbn in Hns |- *.
  rewrite forallb_app, Hns. unfold fut_log, future_result. cbn.
  now destruct r as [[u' res]|e].
Qed.

(** The loop itself sends nothing. *)
Lemma run_log_no_send cfg env urls last :
  List.filter is_send (log (classify_all cfg last (dispatch cfg env urls)))
  = [].
Proof.
  apply filter_none. unfold classify_all. rewrite fold_log.
  cbn [init_acc log app]. apply forallb_forall. intros ev Hev.
  apply in_flat_map in Hev as [fut [Hf Hev]].
  assert (Hin : In fut (submit_all cfg env urls)).
  { eapply Permutation_in; [apply as_completed_perm | exact Hf]. }
  pose proof (submit_all_no_send _ _ _ _ Hin) as Hns.
  rewrite forallb_forall in Hns. now apply Hns.
Qed.

(** With a pool of positive width, [perform_checks] returns the state
    that the loop built, after the events of the loop and of the report. *)
Lemma perform_checks_returns cfg env urls last :
  (0 < CONCURRENCY cfg)%Z ->
  perform_checks cfg env urls last =
    (Returns (updated_state (classify_all cfg last (dispatch cfg env urls))),
     log (classify_all cfg last (dispatch cfg env urls))
     ++ snd (report cfg env (classify_all cfg last (dispatch cfg env urls)))).
Proof.
  intros Hw. unfold perform_checks.
  replace (CONCURRENCY cfg <=? 0)%Z with false
    by (symmetry; apply Z.leb_gt; exact Hw).
  pose proof (report_returns cfg env
                (classify_all cfg last (dispatch cfg env urls))) as Hr.
  unfold bind, emits, ret.
  destruct (report cfg env (classify_all cfg last (dispatch cfg env urls)))
    as [r tr]. cbn in Hr. subst r. cbn. now rewrite app_nil_r.
Qed.

(** Without a positive width no pool is built and the call raises. *)
Lemma perform_checks_no_pool cfg env urls last :
  (CONCURRENCY cfg <= 0)%Z ->
  perform_checks cfg env urls last
  = (Raises "max_workers must be greater than 0", []).
Proof.
  intros Hw. unfold perform_checks.
  now replace (CONCURRENCY cfg <=? 0)%Z with true
    by (symmetry; apply Z.leb_le; exact Hw).
Qed.

(** * The alert decision *)

(** Under the always policy every failing result is alertable. *)
Lemma send_alert_always cfg prev status_text :
  SEND_ON_EVERY_FAILURE cfg = true ->
  send_alert_of cfg prev status_text = true.
Proof. intros H. unfold send_alert_of. now rewrite H. Qed.

(** No previous state, or previous state ["OK"]: alertable. *)
Lemma send_alert_new_failure cfg prev status_text :
  prev = None \/ prev = Some "OK" ->
  send_alert_of cfg prev status_text = true.
Proof.
  intros [->| ->]; unfold send_alert_of;
    now destruct (SEND_ON_EVERY_FAILURE cfg).
Qed.

(** The comparison of the previous state with the current status text
    never finds them equal when the previous state is one that the program
    wrote for a failure: the stored string carries the prefix ["FAIL::"],
    the status text does not. *)
Lemma send_alert_persisted_failure cfg d res :
  ok res = false ->
  send_alert_of cfg (Some ("FAIL::" +:+ d)) (status_text_of res) = true.
Proof.
  intros Hok. unfold send_alert_of, status_text_of. rewrite Hok.
  now destruct (SEND_ON_EVERY_FAILURE cfg).
Qed.

(** * Alerts, recoveries and the state map *)

(** C1 (the program departs from it): under the on-transition policy, a
    target whose stored state is the failure state that the previous run
    wrote for ["FAIL: HTTP 500"], and which fails again with status 500, is
    put on the list of alertable failures again; its stored state does not
    change. *)
Theorem C1_unchanged_failure_alerts_again :
  let run :=
    classify_all default_config state_bad_500
      (dispatch default_config (env_of (fun _ => world_500) in_order)
         [bad_url]) in
  SEND_ON_EVERY_FAILURE default_config = false
  /\ state_bad_500 !! bad_url = Some "FAIL::FAIL: HTTP 500"
  /\ updated_state run !! bad_url = Some "FAIL::FAIL: HTTP 500"
  /\ failures run = [(bad_url, "FAIL: HTTP 500")].
Proof. vm_compute. repeat split. Qed.

(** C2: a succeeding result for a target whose loaded state starts with
    ["FAIL"] (as every ["FAIL::<descriptor>"] does) adds the recovery entry
    (target, previous state, status text) and stores ["OK"], under either
    alert policy; with no loaded state or the loaded state ["OK"] no
    recovery entry is added.  In a whole run the entry is in the final list
    of recoveries, and the target ends as ["OK"] when all its results of the
    run succeed. *)
Theorem C2_recovery_recorded
    (cfg : config) (last : gmap string string) (acc : run_acc)
    (completed : list future) (fut : future) (u : string) (res : ProbeRes) :
  f_result fut = Returns (u, res) ->
  ok res = true ->
  let acc' := process_future cfg last acc fut in
  let run := classify_all cfg last completed in
  updated_state acc' !! u = Some "OK"
  /\ failures acc' = failures acc
  /\ (forall p, last !! u = Some p -> Py.startswith p "FAIL" = true ->
        recoveries acc' = recoveries acc ++ [(u, p, status_text_of res)]
        /\ (In fut completed ->
            In (u, p, status_text_of res) (recoveries run)))
  /\ (last !! u = None \/ last !! u = Some "OK" ->
        recoveries acc' = recoveries acc)
  /\ (In fut completed ->
      (forall f, In f completed -> fut_key f = u -> ok (fut_res f) = true) ->
      updated_state run !! u = Some "OK").
Proof.
  intros Hres Hok acc' run.
  assert (Hkey : fut_key fut = u)
    by (unfold fut_key, future_result; now rewrite Hres).
  assert (Hr : fut_res fut = res)
    by (unfold fut_res, future_result; now rewrite Hres).
  destruct (process_future_fields cfg last acc fut)
    as (Hst & Hfl & Hrc & _ & _).
  fold acc' in Hst, Hfl, Hrc.
  unfold failure_entries, recovery_entries, new_state_of in *.
  rewrite Hkey, Hr, Hok in *.
  assert (Hwas : forall p, last !! u = Some p ->
                   Py.startswith p "FAIL" = true ->
                   was_failing (last !! u) = Some p).
  { intros p Hp Hf. unfold was_failing. rewrite Hp, Hf.
    destruct p; [discriminate Hf | reflexivity]. }
  split; [|split; [|split; [|split]]].
  - rewrite Hst. apply lookup_insert_eq.
  - now rewrite Hfl, app_nil_r.
  - intros p Hp Hf. split.
    + now rewrite Hrc, (Hwas p Hp Hf).
    + intros Hin. unfold run, classify_all. rewrite fold_recoveries.
      cbn [init_acc recoveries app]. apply in_flat_map. exists fut.
      split; [exact Hin|]. unfold recovery_entries.
      rewrite Hkey, Hr, Hok, (Hwas p Hp Hf). now left.
  - intros [Hn|Hn]; rewrite Hrc, Hn; cbn; now rewrite app_nil_r.
  - intros Hin Hall. unfold run, classify_all.
    apply fold_state_agree.
    + apply in_map_iff. exists fut. now split.
    + intros f Hf Hk. unfold new_state_of. now rewrite (Hall f Hf Hk).
Qed.

Lemma C2_recovery_recorded_witness :
  let run := classify_all default_config state_bad_500 [fut_good bad_url] in
  f_result (fut_good bad_url) = Returns (bad_url, res_200)
  /\ ok res_200 = true
  /\ recoveries run = [(bad_url, "FAIL::FAIL: HTTP 500", "OK: HTTP 200")]
  /\ updated_state run !! bad_url = Some "OK".
Proof.
  pose proof (C2_recovery_recorded default_config state_bad_500
                (init_acc state_bad_500) [fut_good bad_url]
                (fut_good bad_url) bad_url res_200 eq_refl eq_refl)
    as (_ & _ & Hrec & _ & Hfin).
  split; [reflexivity|]. split; [reflexivity|]. split.
  - destruct (Hrec "FAIL::FAIL: HTTP 500") as [Hr _]; [reflexivity..|].
    exact Hr.
  - apply Hfin; [now left|].
    intros f [<-|[]] _. reflexivity.
Defined.

(** C4, as stated, fails for a list that names a target twice: the two
    probes of the target can differ, and then the one that completes last
    decides the stored state.  The same two tasks, completing in submission
    order (as a pool of width 1 makes them) or in reverse order (possible
    with width 2), leave different state maps. *)
Lemma C4_duplicate_target_order_matters :
  let urls := [bad_url; bad_url] in
  let w := first_then world_500 world_200 in
  let cfg1 := with_width default_config 1 in
  let cfg2 := with_width default_config 2 in
  let run1 := classify_all cfg1 ∅ (dispatch cfg1 (env_of w in_order) urls) in
  let run2 := classify_all cfg2 ∅ (dispatch cfg2 (env_of w reversed) urls) in
  updated_state run1 !! bad_url = Some "OK"
  /\ updated_state run2 !! bad_url = Some "FAIL::FAIL: HTTP 500"
  /\ updated_state run1 <> updated_state run2.
Proof.
  intros urls w cfg1 cfg2 run1 run2.
  assert (H1 : updated_state run1 !! bad_url = Some "OK")
    by (vm_compute; reflexivity).
  assert (H2 : updated_state run2 !! bad_url = Some "FAIL::FAIL: HTTP 500")
    by (vm_compute; reflexivity).
  split; [exact H1|]. split; [exact H2|].
  intros Heq. rewrite Heq, H2 in H1. discriminate H1.
Qed.

(** C4 (amended): what a future adds to the failures, to the recoveries
    and to the state is a function of that future and of the state map
    loaded at the start, not of what was processed before.  So two runs over
    the same worlds, with any two pool widths and any completion times, have
    the same failure entries and the same recovery entries up to order; and
    when the URLs are stripped and pairwise distinct they end with the same
    state map.  Of the loaded map, only the entry of the future's own target
    is looked at. *)
Theorem C4_order_independence
    (cfg : config) (w1 w2 : Z) (env1 env2 : run_env)
    (urls : list string) (last : gmap string string) :
  (forall i, world_of env1 i = world_of env2 i) ->
  let cfg1 := with_width cfg w1 in
  let cfg2 := with_width cfg w2 in
  let run1 := classify_all cfg1 last (dispatch cfg1 env1 urls) in
  let run2 := classify_all cfg2 last (dispatch cfg2 env2 urls) in
  (forall acc fut,
     failures (process_future cfg last acc fut)
       = failures acc ++ failure_entries cfg last fut
     /\ recoveries (process_future cfg last acc fut)
        = recoveries acc ++ recovery_entries last fut
     /\ updated_state (process_future cfg last acc fut)
        = <[fut_key fut := new_state_of (fut_res fut)]> (updated_state acc))
  /\ (forall last' fut,
        last' !! fut_key fut = last !! fut_key fut ->
        failure_entries cfg last' fut = failure_entries cfg last fut
        /\ recovery_entries last' fut = recovery_entries last fut)
  /\ Permutation (failures run1) (failures run2)
  /\ Permutation (recoveries run1) (recoveries run2)
  /\ (Forall stripped urls -> NoDup urls ->
      updated_state run1 = updated_state run2).
Proof.
  intros Hw cfg1 cfg2 run1 run2.
  assert (Hp : Permutation (dispatch cfg1 env1 urls) (dispatch cfg2 env2 urls)).
  { unfold dispatch, cfg1, cfg2. rewrite !as_completed_perm.
    rewrite !submit_all_width. now rewrite (submit_all_worlds cfg env1 env2). }
  split; [|split; [|split; [|split]]].
  - intros acc fut.
    destruct (process_future_fields cfg last acc fut) as (H1 & H2 & H3 & _).
    auto.
  - intros last' fut Heq. unfold failure_entries, recovery_entries.
    now rewrite Heq.
  - unfold run1, run2, classify_all. rewrite !fold_failures.
    cbn [init_acc failures app].
    change (failure_entries cfg1 last) with (failure_entries cfg last).
    change (failure_entries cfg2 last) with (failure_entries cfg last).
    now apply Permutation_flat_map.
  - unfold run1, run2, classify_all. rewrite !fold_recoveries.
    cbn [init_acc recoveries app]. now apply Permutation_flat_map.
  - intros Hs Hnd. unfold run1, run2, classify_all. rewrite !fold_state.
    apply state_perm; [exact Hp|].
    pose proof (dispatch_keys cfg1 env1 urls Hs) as Hk.
    now rewrite Hk.
Qed.

Lemma C4_order_independence_witness :
  let urls := [good_url; bad_url] in
  let w := first_then world_200 world_500 in
  let cfg1 := with_width default_config 1 in
  let cfg2 := with_width default_config 2 in
  (forall i, world_of (env_of w in_order) i = world_of (env_of w reversed) i)
  /\ Forall stripped urls
  /\ NoDup urls
  /\ updated_state
       (classify_all cfg1 ∅ (dispatch cfg1 (env_of w in_order) urls))
     = updated_state
         (classify_all cfg2 ∅ (dispatch cfg2 (env_of w reversed) urls)).
Proof.
  intros urls w cfg1 cfg2.
  assert (Hs : Forall stripped urls) by (repeat constructor).
  assert (Hnd : NoDup urls).
  { apply (bool_decide_unpack (NoDup urls)). vm_compute. exact I. }
  split; [reflexivity|]. split; [exact Hs|]. split; [exact Hnd|].
  apply (C4_order_independence default_config 1 2
           (env_of w in_order) (env_of w reversed) urls ∅);
    [reflexivity | exact Hs | exact Hnd].
Defined.

(** The keys of the state after the loop, for any list of futures. *)
Lemma classify_all_keys cfg last completed :
  dom (updated_state (classify_all cfg last completed))
  = dom last ∪ list_to_set (map fut_key completed)
  /\ (forall k, ~ In k (map fut_key completed) ->
        updated_state (classify_all cfg last completed) !! k = last !! k).
Proof.
  unfold classify_all. split.
  - now rewrite fold_state_dom.
  - intros k Hk. now rewrite fold_state_other.
Qed.

(** C5: a run over the targets that [load_urls] gave returns a state map
    whose keys are the keys of the loaded map together with those targets,
    and every entry of a key that is not among the targets has the value it
    had in the loaded map. *)
Theorem C5_state_keys
    (cfg : config) (env : run_env) (f : file (list string))
    (urls : list string) (tr0 : list event) (last : gmap string string) :
  load_urls (URLS_FILE cfg) f = (Returns urls, tr0) ->
  (0 < CONCURRENCY cfg)%Z ->
  exists st tr,
    perform_checks cfg env urls last = (Returns st, tr)
    /\ dom st = dom last ∪ list_to_set urls
    /\ (forall k, ~ In k urls -> st !! k = last !! k).
Proof.
  intros Hl Hw. apply load_urls_stripped in Hl.
  eexists _, _. split; [apply perform_checks_returns; exact Hw|].
  destruct (classify_all_keys cfg last (dispatch cfg env urls)) as [Hd Ho].
  pose proof (dispatch_keys cfg env urls Hl) as Hp.
  split.
  - rewrite Hd. f_equal. apply set_eq. intros k.
    rewrite !elem_of_list_to_set. now rewrite Hp.
  - intros k Hk. apply Ho. intros Hin. apply Hk.
    eapply Permutation_in; [exact Hp | exact Hin].
Qed.

Lemma C5_state_keys_witness :
  load_urls (URLS_FILE default_config)
    (Content ["# targets"; " http://good.example "; EmptyString])
  = (Returns [good_url], [])
  /\ (0 < CONCURRENCY default_config)%Z
  /\ exists st tr,
       perform_checks default_config (env_of (fun _ => world_200) in_order)
         [good_url] state_bad_500 = (Returns st, tr)
       /\ dom st = dom state_bad_500 ∪ list_to_set [good_url]
       /\ (forall k, ~ In k [good_url] -> st !! k = state_bad_500 !! k).
Proof.
  split; [reflexivity|]. split; [reflexivity|].
  apply (C5_state_keys default_config (env_of (fun _ => world_200) in_order)
           (Content ["# targets"; " http://good.example "; EmptyString])
           [good_url] []).
  - reflexivity.
  - reflexivity.
Defined.

(** C6: when [fut.result()] raises, the loop goes on with the failing
    result (not ok, status code 0, the text of the exception, ping false)
    for the URL the future was submitted for, and logs the fault; the run is
    processed exactly as if the worker had returned that result, its
    recoveries and the entries of the other targets are those of the run
    without the faulty future, and [perform_checks] returns normally. *)
Theorem C6_worker_fault_contained
    (cfg : config) (env : run_env) (urls : list string)
    (last : gmap string string) (before after : list future)
    (fut : future) (e : string) :
  f_result fut = Raises e ->
  (0 < CONCURRENCY cfg)%Z ->
  let u := f_url fut in
  let fut' := {| f_url := u; f_result := Returns (u, synthetic_failure e);
                 f_trace := f_trace fut |} in
  let run := classify_all cfg last (before ++ fut :: after) in
  let run' := classify_all cfg last (before ++ fut' :: after) in
  let others := classify_all cfg last (before ++ after) in
  future_result fut
    = (u, {| ok := false; status_code := 0; error := e; ping := false |},
       [LogException ("Worker failure for " +:+ u) e])
  /\ (updated_state run = updated_state run'
      /\ failures run = failures run'
      /\ recoveries run = recoveries run'
      /\ details run = details run')
  /\ recoveries run = recoveries others
  /\ (exists own,
        failures run
        = failures (classify_all cfg last before) ++ own
          ++ flat_map (failure_entries cfg last) after
        /\ failures others
           = failures (classify_all cfg last before)
             ++ flat_map (failure_entries cfg last) after
        /\ Forall (fun x => fst x = u) own)
  /\ (forall k, k <> u -> updated_state run !! k = updated_state others !! k)
  /\ exists st tr, perform_checks cfg env urls last = (Returns st, tr).
Proof.
  intros Hres Hw u fut' run run' others.
  assert (Hfr : future_result fut
                = (u, synthetic_failure e,
                   [LogException ("Worker failure for " +:+ u) e]))
    by (unfold future_result; now rewrite Hres).
  assert (Hstep : forall acc,
             let a := process_future cfg last acc fut in
             let a' := process_future cfg last acc fut' in
             updated_state a = updated_state a' /\ failures a = failures a'
             /\ recoveries a = recoveries a' /\ details a = details a').
  { intros acc. unfold process_future. rewrite Hfr. cbn. repeat split. }
  assert (Hkey : fut_key fut = u) by (unfold fut_key; now rewrite Hfr).
  assert (Hfres : fut_res fut = synthetic_failure e)
    by (unfold fut_res; now rewrite Hfr).
  assert (Hfe : failure_entries cfg last fut = failure_entries cfg last fut').
  { unfold failure_entries, fut_key, fut_res. now rewrite Hfr. }
  assert (Hre : recovery_entries last fut = []).
  { unfold recovery_entries. now rewrite Hfres. }
  assert (Hre' : recovery_entries last fut' = []) by reflexivity.
  split; [exact Hfr|]. split; [|split; [|split; [|split]]].
  - unfold run, run', classify_all.
    rewrite !fold_left_app. cbn [fold_left].
    set (acc := fold_left (process_future cfg last) before (init_acc last)).
    destruct (Hstep acc) as (Hs & Hf & Hr & Hd).
    rewrite !fold_state, !fold_failures, !fold_recoveries.
    rewrite Hs, Hf, Hr. repeat split.
    revert Hd. generalize (process_future cfg last acc fut)
      (process_future cfg last acc fut').
    induction after as [|x after IH]; intros a a' Hd; [exact Hd|].
    cbn [fold_left]. apply IH.
    destruct (process_future_fields cfg last a x) as (_ & _ & _ & -> & _).
    destruct (process_future_fields cfg last a' x) as (_ & _ & _ & -> & _).
    now rewrite Hd.
  - unfold run, others, classify_all. rewrite !fold_recoveries.
    cbn [init_acc recoveries app]. rewrite !flat_map_app. cbn [flat_map].
    now rewrite Hre.
  - exists (failure_entries cfg last fut).
    unfold run, others, classify_all. rewrite !fold_failures.
    cbn [init_acc failures app]. rewrite !flat_map_app. cbn [flat_map].
    repeat split.
    unfold failure_entries. rewrite Hkey, Hfres. cbn.
    destruct (send_alert_of cfg (last !! u) _); repeat constructor.
  - intros k Hk. unfold run, others, classify_all.
    rewrite !fold_left_app. cbn [fold_left].
    set (acc := fold_left (process_future cfg last) before (init_acc last)).
    rewrite !fold_state.
    destruct (process_future_fields cfg last acc fut) as (-> & _).
    rewrite Hkey. generalize (updated_state acc). intros m.
    generalize (new_state_of (fut_res fut)). intros v.
    induction after as [|x after IH] using rev_ind; cbn [fold_left].
    + now rewrite lookup_insert_ne.
    + rewrite !fold_left_app. cbn [fold_left].
      destruct (decide (fut_key x = k)) as [->|Hne].
      * now rewrite !lookup_insert_eq.
      * rewrite !lookup_insert_ne by exact Hne. exact IH.
  - eexists _, _. apply perform_checks_returns. exact Hw.
Qed.

Lemma C6_worker_fault_contained_witness :
  let run :=
    classify_all default_config ∅ [fut_good good_url; fut_crash bad_url] in
  f_result (fut_crash bad_url) = Raises "boom"
  /\ (0 < CONCURRENCY default_config)%Z
  /\ failures run = [(bad_url, "FAIL: boom")]
  /\ updated_state run !! good_url = Some "OK".
Proof.
  pose proof (C6_worker_fault_contained default_config
                (env_of (fun _ => world_crash) in_order) [bad_url] ∅
                [fut_good good_url] [] (fut_crash bad_url) "boom"
                eq_refl eq_refl) as (_ & _ & _ & (own & Hf & _ & _) & Ho & _).
  split; [reflexivity|]. split; [reflexivity|]. split.
  - reflexivity.
  - rewrite Ho; [reflexivity | discriminate].
Defined.

Lemma reportable_iff acc :
  reportable acc = true <-> failures acc <> [] \/ recoveries acc <> [].
Proof.
  unfold reportable. destruct (failures acc), (recoveries acc); split;
    intros H; try reflexivity; try discriminate H;
    try (left; discriminate); try (right; discriminate).
  destruct H as [H|H]; now elim H.
Qed.

(** C9: in a run (pool of positive width), [send_email] is called, once
    and with the subject and body built from the run, exactly when the list
    of alertable failures or the list of recoveries is not empty; when both
    are empty nothing is built or sent and the run only logs that there was
    nothing to report. *)
Theorem C9_report_iff_entries
    (cfg : config) (env : run_env) (urls : list string)
    (last : gmap string string) :
  (0 < CONCURRENCY cfg)%Z ->
  let run := classify_all cfg last (dispatch cfg env urls) in
  let tr := snd (perform_checks cfg env urls last) in
  (failures run <> [] \/ recoveries run <> [] ->
     List.filter is_send tr
     = [SendEmail (subject_of run) (Py.join Py.nl (body_lines (now env) run))])
  /\ (failures run = [] /\ recoveries run = [] ->
     List.filter is_send tr = []
     /\ tr = log run ++ [LogInfo "No failures or recoveries in this run."])
  /\ ((exists subject body, In (SendEmail subject body) tr)
      <-> failures run <> [] \/ recoveries run <> []).
Proof.
  intros Hw run tr.
  assert (Htr : tr = log run ++ snd (report cfg env run)).
  { unfold tr. now rewrite perform_checks_returns. }
  assert (Hlog : List.filter is_send (log run) = [])
    by apply run_log_no_send.
  assert (Hyes : failures run <> [] \/ recoveries run <> [] ->
                 List.filter is_send tr
                 = [SendEmail (subject_of run)
                      (Py.join Py.nl (body_lines (now env) run))]).
  { intros H. apply reportable_iff in H.
    rewrite Htr, List.filter_app, Hlog. unfold report. rewrite H.
    apply send_email_returns. }
  assert (Hno : failures run = [] /\ recoveries run = [] ->
                List.filter is_send tr = []
                /\ tr = log run
                        ++ [LogInfo "No failures or recoveries in this run."]).
  { intros [Hf Hr].
    assert (Hrep : reportable run = false)
      by (unfold reportable; now rewrite Hf, Hr).
    rewrite Htr. unfold report. rewrite Hrep. cbn [snd emit].
    split; [|reflexivity]. now rewrite List.filter_app, Hlog. }
  split; [exact Hyes|]. split; [exact Hno|]. split.
  - intros (subject & body & Hin).
    destruct (failures run) as [|x fl] eqn:Ef; [|left; discriminate].
    destruct (recoveries run) as [|y rl] eqn:Er; [|right; discriminate].
    destruct Hno as [Hnone _]; [now split|].
    assert (Hin' : In (SendEmail subject body) (List.filter is_send tr))
      by (apply filter_In; now split).
    rewrite Hnone in Hin'. destruct Hin'.
  - intros H. exists (subject_of run),
      (Py.join Py.nl (body_lines (now env) run)).
    assert (Hin : In (SendEmail (subject_of run)
                        (Py.join Py.nl (body_lines (now env) run)))
                     (List.filter is_send tr))
      by (rewrite (Hyes H); now left).
    now apply filter_In in Hin.
Qed.

Lemma C9_report_iff_entries_witness :
  (0 < CONCURRENCY default_config)%Z
  /\ List.filter is_send
       (snd (perform_checks default_config
               (env_of (fun _ => world_200) in_order) [good_url] ∅))
     = [].
Proof.
  split; [reflexivity|].
  apply (C9_report_iff_entries default_config
           (env_of (fun _ => world_200) in_order) [good_url] ∅).
  - reflexivity.
  - split; reflexivity.
Defined.

(** The scenarios of the test plan, evaluated. *)

(** Scenario A: one good target, one that times out at every attempt, no
    history: one failure is reported, and the states are ["OK"] and the
    failure state of the timeout. *)
Example scenario_A :
  let w := first_then world_200 world_timeout in
  let run :=
    classify_all default_config ∅
      (dispatch default_config (env_of w in_order) [good_url; bad_url]) in
  failures run = [(bad_url, "FAIL: timed out")]
  /\ recoveries run = []
  /\ updated_state run !! good_url = Some "OK"
  /\ updated_state run !! bad_url = Some "FAIL::FAIL: timed out"
  /\ List.filter is_send
       (snd (perform_checks default_config (env_of w in_order)
               [good_url; bad_url] ∅))
     = [SendEmail "[ALERT] Monitor: 1 failures, 0 recoveries"
          (Py.join Py.nl
             ["Monitor run time (UTC): 2024-01-01T00:00:00Z"; EmptyString;
              "Summary:";
              Py.nl +:+ "Failures (1):";
              "- http://bad.example -> FAIL: timed out (ping=NO)";
              Py.nl +:+ "Full details (per-URL):";
              "- http://good.example : OK: HTTP 200 (ping=OK)";
              "- http://bad.example : FAIL: timed out (ping=NO)"])].
Proof. vm_compute. repeat split. Qed.

(** Scenario C: the target that was failing answers 200: one recovery. *)
Example scenario_C :
  let run :=
    classify_all default_config state_bad_500
      (dispatch default_config (env_of (fun _ => world_200) in_order)
         [bad_url]) in
  failures run = []
  /\ recoveries run = [(bad_url, "FAIL::FAIL: HTTP 500", "OK: HTTP 200")]
  /\ updated_state run !! bad_url = Some "OK".
Proof. vm_compute. repeat split. Qed.

(** A worker that raises (here the request fails with an exception that
    is no [RequestException]) becomes a reported failure of its target. *)
Example worker_fault_end_to_end :
  let env := env_of (fun _ => world_crash) in_order in
  map f_result (submit_all default_config env [bad_url]) = [Raises "boom"]
  /\ failures (classify_all default_config ∅
                 (dispatch default_config env [bad_url]))
     = [(bad_url, "FAIL: boom")]
  /\ fst (main default_config true
            {| c_urls := Content [bad_url]; c_state := Missing;
               c_env := env; c_write_fault := None |} [])
     = Exited.
Proof. vm_compute. repeat split. Qed.

(** * The state store and the run loop *)


Lemma load_urls_missing path :
  load_urls path Missing
  = (Returns [], [LogError ("URLs file not found: " +:+ path)]).
Proof. reflexivity. Qed.

(** [load_urls] only logs. *)
Lemma load_urls_quiet path f :
  List.filter is_probe (snd (load_urls path f)) = []
  /\ List.filter is_send (snd (load_urls path f)) = [].
Proof. destruct f; now split. Qed.

(** [save_state] returns, having written or logged. *)
Lemma save_state_returns wf st :
  save_state wf st
  = (Returns tt,
     match wf with
     | Some e => [LogException "Failed to write state file" e]
     | None => [WriteState st]
     end).
Proof. now destruct wf. Qed.







(** * Further properties *)

(** ** The target list *)

Lemma truthy_nonempty s : Py.truthy s = true <-> s <> EmptyString.
Proof. destruct s; cbn; split; intros H; congruence. Qed.


Lemma filter_all {A} (p : A -> bool) (l : list A) :
  (forall x, In x l -> p x = true) -> List.filter p l = l.
Proof.
  induction l as [|x l IH]; intros H; [reflexivity|]. cbn.
  rewrite (H x (or_introl eq_refl)). f_equal. apply IH.
  intros y Hy. apply H. now right.
Qed.

Lemma map_stripped l : Forall stripped l -> map Py.strip l = l.
Proof.
  induction 1 as [|u l Hu _ IH]; [reflexivity|]. cbn. now rewrite Hu, IH.
Qed.


(** X2: the list that [load_urls] returns is a fixed point: a file that
    holds exactly these targets, one per line, loads as the same list. *)
Theorem X2_load_urls_fixpoint
    (path : string) (f : file (list string)) (urls : list string)
    (tr : list event) :
  load_urls path f = (Returns urls, tr) ->
  load_urls path (Content urls) = (Returns urls, []).
Proof.
  intros H. pose proof (load_urls_stripped _ _ _ _ H) as Hs.
  assert (Hall : forall u, In u urls ->
            Py.truthy u && negb (Py.startswith u "#") = true).
  { destruct f as [|e|ls]; cbn in H; inversion H; subst; [intros u []|].
    intros u Hu. now apply filter_In in Hu. }
  cbn. rewrite (map_stripped urls Hs). now rewrite (filter_all _ urls Hall).
Qed.

Lemma X2_load_urls_fixpoint_witness :
  load_urls "urls.txt" (Content ["# targets"; " http://good.example "])
  = (Returns [good_url], [])
  /\ load_urls "urls.txt" (Content [good_url]) = (Returns [good_url], []).
Proof.
  assert (H : load_urls "urls.txt"
                (Content ["# targets"; " http://good.example "])
              = (Returns [good_url], [])) by reflexivity.
  split; [exact H|]. exact (X2_load_urls_fixpoint _ _ _ _ H).
Defined.

(** ** The prober, for every behaviour of the network *)

Section ProberShape.

Variable cfg : config.
Variable net : Z -> response.
Variable url : string.
Variables timeout retries : Z.

(** Either the first [n] attempts all raise a caught exception, or there
    is a first one that does not. *)
Lemma first_uncaught n :
  (forall i, (i < n)%nat -> caught (net (att i)) = true)
  \/ exists k, (k < n)%nat /\ caught (net (att k)) = false
               /\ forall i, (i < k)%nat -> caught (net (att i)) = true.
Proof.
  induction n as [|n IH]; [left; intros i Hi; lia|].
  destruct IH as [Hall|(k & Hk & Hnc & Hpre)].
  - destruct (caught (net (att n))) eqn:En.
    + left. intros i Hi. destruct (Nat.eq_dec i n) as [->|Hne];
        [exact En | apply Hall; lia].
    + right. exists n. split; [lia|]. split; [exact En|exact Hall].
  - right. exists k. split; [lia|]. now split.
Qed.

(** The three ways in which [http_check] ends, with its requests. *)
Lemma http_check_cases :
  ((retries <= 0)%Z
   /\ http_check cfg net url timeout retries
      = (Returns (false, 0%Z, "Unknown error"), []))
  \/ exists k,
       (k < Z.to_nat retries)%nat
       /\ snd (http_check cfg net url timeout retries)
          = retry_trace cfg url timeout k ++ [HttpGet url timeout]
       /\ ((exists code,
              net (att k) = Status code
              /\ fst (http_check cfg net url timeout retries)
                 = Returns (response_result code))
           \/ (exists e,
                 net (att k) = OtherFault e
                 /\ fst (http_check cfg net url timeout retries) = Raises e)
           \/ (S k = Z.to_nat retries
               /\ fst (http_check cfg net url timeout retries)
                  = Returns (false, 0%Z,
                             Py.or (fault_text (net (att k)))
                               "Unknown error"))).
Proof.
  destruct (Z_le_gt_dec retries 0) as [Hle|Hgt].
  - left. split; [exact Hle|]. now apply http_check_no_attempts.
  - right.
    destruct (first_uncaught (Z.to_nat retries))
      as [Hall|(k & Hk & Hnc & Hpre)].
    + exists (Z.to_nat retries - 1)%nat.
      assert (Hk : S (Z.to_nat retries - 1) = Z.to_nat retries) by lia.
      rewrite (http_check_exhausted cfg net url timeout retries _ Hk)
        by (intros i Hi; apply Hall; lia).
      split; [lia|]. split; [reflexivity|]. right. right. now split.
    + exists k. split; [exact Hk|].
      destruct (net (att k)) as [code|e|e|e] eqn:En; try discriminate Hnc.
      * rewrite (http_check_response cfg net url timeout retries k code
                   Hk Hpre En).
        split; [reflexivity|]. left. now exists code.
      * rewrite (http_check_other_fault cfg net url timeout retries k e
                   Hk Hpre En).
        split; [reflexivity|]. right. left. now exists e.
Qed.

End ProberShape.

Lemma or_unknown_nonempty s : Py.or s "Unknown error" <> EmptyString.
Proof. destruct s; cbn; discriminate. Qed.

Lemma response_result_cases code :
  ((200 <= code < 300)%Z
   /\ response_result code = (true, code, EmptyString))
  \/ (~ (200 <= code < 300)%Z
      /\ response_result code = (false, code, "HTTP " +:+ Py.str code)).
Proof.
  unfold response_result.
  destruct (Z.leb_spec 200 code), (Z.ltb_spec code 300); cbn;
    [left|right|right|right]; split; try reflexivity; lia.
Qed.

(** X3: whatever the network does, [http_check] with a positive limit
    issues at least one and at most [retries] requests, pauses for
    [RETRY_DELAY] between two consecutive requests and never after the last
    one, and does nothing else; with a limit of zero or less it does
    nothing. *)
Theorem X3_http_check_trace_shape
    (cfg : config) (net : Z -> response) (url : string)
    (timeout retries : Z) :
  let tr := snd (http_check cfg net url timeout retries) in
  (((retries <= 0)%Z /\ tr = [])
   \/ exists k, (k < Z.to_nat retries)%nat
                /\ tr = retry_trace cfg url timeout k ++ [HttpGet url timeout]
                /\ requests_made tr = S k)
  /\ (requests_made tr <= Z.to_nat retries)%nat.
Proof.
  intros tr. unfold tr.
  destruct (http_check_cases cfg net url timeout retries)
    as [[Hle ->]|(k & Hk & -> & _)].
  - split; [left; now split|]. cbn. lia.
  - assert (Hn : requests_made
                   (retry_trace cfg url timeout k ++ [HttpGet url timeout])
                 = S k)
      by (rewrite requests_made_retry_trace; cbn; lia).
    split; [right; exists k; now repeat split|]. rewrite Hn. lia.
Qed.

(** X4: a result that [http_check] returns is consistent: it is a success
    exactly when its status code is in 200..299, a success carries no error
    text, and a failure always carries a non-empty one. *)
Theorem X4_http_check_result_consistent
    (cfg : config) (net : Z -> response) (url : string)
    (timeout retries : Z) (success : bool) (code : Z) (err : string)
    (tr : list event) :
  http_check cfg net url timeout retries = (Returns (success, code, err), tr) ->
  (success = true <-> (200 <= code < 300)%Z)
  /\ (success = true -> err = EmptyString)
  /\ (success = false -> err <> EmptyString).
Proof.
  intros H.
  assert (Hf : fst (http_check cfg net url timeout retries)
               = Returns (success, code, err)) by now rewrite H.
  destruct (http_check_cases cfg net url timeout retries)
    as [[_ Heq]|(k & _ & _ & [(c & _ & Hr)|[(e & _ & Hr)|[_ Hr]]])].
  - rewrite Heq in Hf. inversion Hf; subst.
    repeat split; try discriminate; try lia.
  - rewrite Hr in Hf. inversion Hf as [Hrr].
    destruct (response_result_cases c) as [[Hin Hc]|[Hout Hc]];
      rewrite Hc in Hrr; inversion Hrr; subst;
      repeat split; try discriminate; try tauto; try reflexivity.
  - rewrite Hr in Hf. discriminate Hf.
  - rewrite Hr in Hf. inversion Hf; subst.
    repeat split; try discriminate; try lia.
    intros _. apply or_unknown_nonempty.
Qed.

Lemma X4_http_check_result_consistent_witness :
  http_check default_config net_flaky_500 bad_url 10 2
  = (Returns (false, 500%Z, "HTTP 500"),
     [HttpGet bad_url 10; Sleep 2; HttpGet bad_url 10])
  /\ "HTTP 500" <> EmptyString.
Proof.
  assert (H : http_check default_config net_flaky_500 bad_url 10 2
              = (Returns (false, 500%Z, "HTTP 500"),
                 [HttpGet bad_url 10; Sleep 2; HttpGet bad_url 10]))
    by reflexivity.
  split; [exact H|].
  destruct (X4_http_check_result_consistent _ _ _ _ _ _ _ _ _ H)
    as (_ & _ & Hne).
  now apply Hne.
Defined.

(** ** The worker *)

Lemma retry_trace_worker_events cfg url k tl :
  Forall (worker_event cfg url) tl ->
  Forall (worker_event cfg url)
    (retry_trace cfg (Py.strip url) (CHECK_TIMEOUT cfg) k ++ tl).
Proof.
  intros Htl. induction k as [|k IH]; [exact Htl|].
  cbn. constructor; [now split|]. constructor; [reflexivity|exact IH].
Qed.

Lemma retry_trace_no_ping cfg url timeout k tl :
  List.filter is_ping (retry_trace cfg url timeout k ++ tl)
  = List.filter is_ping tl.
Proof. induction k as [|k IH]; [reflexivity|exact IH]. Qed.

(** What the requests of a worker look like. *)
Lemma http_check_worker_events cfg net url :
  Forall (worker_event cfg url)
    (snd (http_check cfg net (Py.strip url) (CHECK_TIMEOUT cfg)
            (HTTP_RETRIES cfg)))
  /\ List.filter is_ping
       (snd (http_check cfg net (Py.strip url) (CHECK_TIMEOUT cfg)
               (HTTP_RETRIES cfg))) = []
  /\ (requests_made
        (snd (http_check cfg net (Py.strip url) (CHECK_TIMEOUT cfg)
                (HTTP_RETRIES cfg)))
      <= Z.to_nat (HTTP_RETRIES cfg))%nat.
Proof.
  destruct (http_check_cases cfg net (Py.strip url) (CHECK_TIMEOUT cfg)
              (HTTP_RETRIES cfg)) as [[_ ->]|(k & Hk & -> & _)].
  - cbn. repeat split; [constructor|lia].
  - split; [|split].
    + apply retry_trace_worker_events. constructor; [now split|constructor].
    + now rewrite retry_trace_no_ping.
    + rewrite requests_made_retry_trace. cbn. lia.
Qed.

(** The worker, case by case. *)
Lemma check_url_unfold cfg w url :
  check_url cfg w url =
    match pw_hostname w with
    | Raises e => (Raises e, [])
    | Returns h =>
        (match fst (http_check cfg (pw_net w) (Py.strip url)
                      (CHECK_TIMEOUT cfg) (HTTP_RETRIES cfg)) with
         | Returns (success, code, err) =>
             Returns (Py.strip url,
                      {| ok := success; status_code := code; error := err;
                         ping := match pw_ping w with
                                 | Some b => b
                                 | None => false
                                 end |})
         | Raises e => Raises e
         end,
         Ping (Py.or h (Py.strip url))
         :: snd (http_check cfg (pw_net w) (Py.strip url)
                   (CHECK_TIMEOUT cfg) (HTTP_RETRIES cfg)))
    end.
Proof.
  unfold check_url, icmp_ping, bind, try_except, emit, ret, raise.
  destruct (pw_hostname w) as [h|e]; [|reflexivity].
  destruct (pw_ping w) as [b|];
    destruct (http_check cfg (pw_net w) (Py.strip url) (CHECK_TIMEOUT cfg)
                (HTTP_RETRIES cfg)) as [[[[o sc] err]|e] tr];
    cbn; now rewrite ?app_nil_r.
Qed.

(** X5: the ping is supplementary.  Whatever the ping does (succeed,
    fail, or fail to run), the worker does the same things and returns the
    same target, verdict, status code and error text, or raises the same
    exception; only the [ping] field of the result follows the ping. *)
Theorem X5_ping_is_supplementary
    (cfg : config) (w : probe_world) (url : string) (reply : option bool) :
  snd (check_url cfg (with_ping w reply) url) = snd (check_url cfg w url)
  /\ match fst (check_url cfg w url),
           fst (check_url cfg (with_ping w reply) url) with
     | Returns (u, r), Returns (u', r') =>
         u = u' /\ ok r = ok r' /\ status_code r = status_code r'
         /\ error r = error r'
         /\ ping r' = match reply with Some b => b | None => false end
     | Raises e, Raises e' => e = e'
     | _, _ => False
     end.
Proof.
  rewrite !check_url_unfold. cbn [with_ping pw_hostname pw_net pw_ping].
  destruct (pw_hostname w) as [h|e]; [|now split].
  cbn [fst snd]. split; [reflexivity|].
  destruct (fst (http_check cfg (pw_net w) (Py.strip url) (CHECK_TIMEOUT cfg)
                   (HTTP_RETRIES cfg))) as [[[o sc] err]|e];
    [cbn; repeat split | reflexivity].
Qed.

(** X6: a worker pings at most once, before its first request (the host
    name of the URL, or the stripped URL itself when it has none); its
    requests all go to the stripped URL with the configured timeout, there
    are at most [HTTP_RETRIES] of them, every pause lasts [RETRY_DELAY], and
    it does nothing else.  When the URL cannot be parsed the worker raises
    before doing anything. *)
Theorem X6_worker_events
    (cfg : config) (w : probe_world) (url : string) :
  let tr := snd (check_url cfg w url) in
  Forall (worker_event cfg url) tr
  /\ (requests_made tr <= Z.to_nat (HTTP_RETRIES cfg))%nat
  /\ (forall h, pw_hostname w = Returns h ->
        exists rest,
          tr = Ping (Py.or h (Py.strip url)) :: rest
          /\ List.filter is_ping rest = [])
  /\ (forall e, pw_hostname w = Raises e ->
        check_url cfg w url = (Raises e, [])).
Proof.
  intros tr. unfold tr. rewrite check_url_unfold.
  destruct (http_check_worker_events cfg (pw_net w) url) as (Hev & Hnp & Hb).
  destruct (pw_hostname w) as [h|e]; cbn [snd].
  - split; [constructor; [exact I|exact Hev]|].
    split; [exact Hb|]. split; [|discriminate].
    intros h' Hh. inversion Hh; subst. eexists. now split.
  - split; [constructor|]. split; [cbn; lia|]. split; [discriminate|].
    intros e' He. now inversion He.
Qed.

(** ** State strings across runs *)

Lemma new_state_ok res : state_string_ok (new_state_of res).
Proof.
  unfold new_state_of, status_text_of, state_string_ok.
  destruct (ok res); [now left|]. right. eexists. reflexivity.
Qed.

Lemma state_string_not_suppressed cfg v res :
  state_string_ok v -> ok res = false ->
  send_alert_of cfg (Some v) (status_text_of res) = true.
Proof.
  intros [->|[d ->]] Hok; unfold send_alert_of, status_text_of;
    rewrite Hok; now destruct (SEND_ON_EVERY_FAILURE cfg).
Qed.

(** X7: the state string that the loop stores for a result is read back
    correctly by the next run: after a success the target does not count as
    failing (no recovery will be recorded for it), after a failure it does,
    with the stored string as its previous state. *)
Theorem X7_stored_state_read_back
    (cfg : config) (last : gmap string string) (acc : run_acc)
    (fut : future) :
  let acc' := process_future cfg last acc fut in
  let res := fut_res fut in
  was_failing (updated_state acc' !! fut_key fut)
  = if ok res then None else Some ("FAIL::" +:+ status_text_of res).
Proof.
  intros acc' res. unfold acc'.
  destruct (process_future_fields cfg last acc fut) as (-> & _).
  rewrite lookup_insert_eq. unfold new_state_of. fold res.
  unfold status_text_of. now destruct (ok res).
Qed.

(** X8: a run keeps the state map well formed: if every loaded value is
    ["OK"] or ["FAIL::FAIL: ..."], so is every value of the state after the
    loop; and the values of the targets of the run are of this form
    whatever was loaded. *)
Theorem X8_state_map_stays_well_formed
    (cfg : config) (last : gmap string string) (completed : list future) :
  let st := updated_state (classify_all cfg last completed) in
  (state_map_ok last -> state_map_ok st)
  /\ (forall k v, In k (map fut_key completed) -> st !! k = Some v ->
        state_string_ok v).
Proof.
  cbv zeta. unfold classify_all.
  induction completed as [|fut l IH] using rev_ind.
  - split; [auto|]. intros k v [].
  - destruct IH as [IH1 IH2]. rewrite fold_state_snoc. split.
    + intros Hl k v. destruct (decide (fut_key fut = k)) as [<-|Hne].
      * rewrite lookup_insert_eq. intros [= <-]. apply new_state_ok.
      * rewrite lookup_insert_ne by exact Hne. now apply IH1.
    + intros k v Hin. destruct (decide (fut_key fut = k)) as [<-|Hne].
      * rewrite lookup_insert_eq. intros [= <-]. apply new_state_ok.
      * rewrite lookup_insert_ne by exact Hne. apply IH2.
        rewrite map_app, in_app_iff in Hin. cbn in Hin.
        destruct Hin as [Hin|[Heq|[]]]; [exact Hin|congruence].
Qed.

Lemma X8_state_map_stays_well_formed_witness :
  state_map_ok state_bad_500
  /\ state_map_ok
       (updated_state
          (classify_all default_config state_bad_500 [fut_good good_url])).
Proof.
  assert (H : state_map_ok state_bad_500).
  { intros k v Hkv. unfold state_bad_500 in Hkv.
    apply lookup_singleton_Some in Hkv as [_ <-].
    right. now exists "HTTP 500". }
  split; [exact H|].
  now apply (X8_state_map_stays_well_formed default_config state_bad_500
               [fut_good good_url]).
Defined.

(** X9: for a state map as the program writes it, the alert policy makes
    no difference: the loop collects the same alertable failures with
    [SEND_ON_EVERY_FAILURE] off as with it on, namely one entry for every
    failing result. *)
Theorem X9_policy_without_effect
    (cfg : config) (last : gmap string string) (completed : list future) :
  state_map_ok last ->
  failures (classify_all (with_policy cfg false) last completed)
  = failures (classify_all (with_policy cfg true) last completed)
  /\ failures (classify_all (with_policy cfg false) last completed)
     = flat_map (fun fut =>
                   if ok (fut_res fut) then []
                   else [(fut_key fut, status_text_of (fut_res fut))])
         completed.
Proof.
  intros Hl.
  assert (He : forall c fut,
             failure_entries c last fut
             = if ok (fut_res fut) then []
               else [(fut_key fut, status_text_of (fut_res fut))]).
  { intros c fut. unfold failure_entries.
    destruct (ok (fut_res fut)) eqn:Hok; [reflexivity|].
    destruct (last !! fut_key fut) as [v|] eqn:Hv.
    - now rewrite (state_string_not_suppressed c v _ (Hl _ _ Hv) Hok).
    - now rewrite send_alert_new_failure by now left. }
  unfold classify_all. rewrite !fold_failures. cbn [init_acc failures app].
  assert (Hm : forall c,
             flat_map (failure_entries c last) completed
             = flat_map (fun fut =>
                           if ok (fut_res fut) then []
                           else [(fut_key fut, status_text_of (fut_res fut))])
                 completed).
  { intros c. induction completed as [|fut l IH]; [reflexivity|].
    cbn [flat_map]. now rewrite He, IH. }
  now rewrite !Hm.
Qed.

Lemma X9_policy_without_effect_witness :
  state_map_ok state_bad_500
  /\ failures (classify_all (with_policy default_config false) state_bad_500
                 [fut_bad bad_url])
     = failures (classify_all (with_policy default_config true) state_bad_500
                   [fut_bad bad_url]).
Proof.
  assert (H : state_map_ok state_bad_500).
  { intros k v Hkv. unfold state_bad_500 in Hkv.
    apply lookup_singleton_Some in Hkv as [_ <-].
    right. now exists "HTTP 500". }
  split; [exact H|].
  now apply (X9_policy_without_effect default_config state_bad_500
               [fut_bad bad_url]).
Defined.

(** ** Two runs in a row, quiet runs, and the size of a report *)

Lemma keys_determine_future (l : list future) f f' :
  NoDup (map fut_key l) -> In f l -> In f' l ->
  fut_key f = fut_key f' -> f = f'.
Proof.
  induction l as [|x l IH]; intros Hnd Hf Hf' Hk; [destruct Hf|].
  cbn in Hnd. apply NoDup_cons in Hnd as [Hx Hnd].
  assert (Hno : forall g, In g l -> fut_key g <> fut_key x).
  { intros g Hg Heq. apply Hx. rewrite <- Heq.
    apply list_elem_of_In, in_map, Hg. }
  destruct Hf as [<-|Hf], Hf' as [<-|Hf']; [reflexivity| | |now apply IH].
  - exfalso. now apply (Hno f' Hf').
  - exfalso. now apply (Hno f Hf).
Qed.

Lemma run_state_of_target cfg last (l : list future) fut :
  NoDup (map fut_key l) -> In fut l ->
  updated_state (classify_all cfg last l) !! fut_key fut
  = Some (new_state_of (fut_res fut)).
Proof.
  intros Hnd Hin. unfold classify_all. apply fold_state_agree.
  - now apply in_map.
  - intros f Hf Hk. now rewrite (keys_determine_future l f fut Hnd Hf Hin Hk).
Qed.

(** X10: a failure followed by a success is a recovery.  If a run over
    distinct targets sees a target fail, the state it returns holds
    ["FAIL::"] and the status text for that target; and a next run that
    starts from this state and sees the target succeed records the recovery
    with that stored string as previous state, and stores ["OK"] (when the
    targets of the next run are distinct too). *)
Theorem X10_failure_then_recovery
    (cfg : config) (last : gmap string string) (run1 run2 : list future)
    (fut1 fut2 : future) :
  NoDup (map fut_key run1) ->
  In fut1 run1 -> ok (fut_res fut1) = false ->
  In fut2 run2 -> fut_key fut2 = fut_key fut1 -> ok (fut_res fut2) = true ->
  let u := fut_key fut1 in
  let stored := "FAIL::" +:+ status_text_of (fut_res fut1) in
  let st1 := updated_state (classify_all cfg last run1) in
  st1 !! u = Some stored
  /\ In (u, stored, status_text_of (fut_res fut2))
        (recoveries (classify_all cfg st1 run2))
  /\ (NoDup (map fut_key run2) ->
      updated_state (classify_all cfg st1 run2) !! u = Some "OK").
Proof.
  intros Hnd Hin1 Hbad Hin2 Hkey Hgood u stored st1.
  assert (Hst : st1 !! u = Some stored).
  { unfold st1, u. rewrite (run_state_of_target cfg last run1 fut1 Hnd Hin1).
    unfold new_state_of. now rewrite Hbad. }
  split; [exact Hst|]. split.
  - unfold classify_all. rewrite fold_recoveries.
    cbn [init_acc recoveries app]. apply in_flat_map. exists fut2.
    split; [exact Hin2|]. unfold recovery_entries.
    rewrite Hgood, Hkey. fold u. rewrite Hst. now left.
  - intros Hnd2. unfold u. rewrite <- Hkey.
    rewrite (run_state_of_target cfg st1 run2 fut2 Hnd2 Hin2).
    unfold new_state_of. now rewrite Hgood.
Qed.

Lemma X10_failure_then_recovery_witness :
  let st1 := updated_state (classify_all default_config ∅ [fut_bad bad_url]) in
  NoDup (map fut_key [fut_bad bad_url])
  /\ st1 !! bad_url = Some "FAIL::FAIL: HTTP 500"
  /\ In (bad_url, "FAIL::FAIL: HTTP 500", "OK: HTTP 200")
        (recoveries (classify_all default_config st1 [fut_good bad_url])).
Proof.
  intros st1.
  assert (Hnd : NoDup (map fut_key [fut_bad bad_url])).
  { apply (bool_decide_unpack (NoDup (map fut_key [fut_bad bad_url]))).
    vm_compute. exact I. }
  split; [exact Hnd|].
  destruct (X10_failure_then_recovery default_config ∅ [fut_bad bad_url]
              [fut_good bad_url] (fut_bad bad_url) (fut_good bad_url) Hnd
              (or_introl eq_refl) eq_refl (or_introl eq_refl) eq_refl eq_refl)
    as (H1 & H2 & _).
  split; [exact H1 | exact H2].
Defined.

Lemma flat_map_nil {A B} (f : A -> list B) (l : list A) :
  (forall x, In x l -> f x = []) -> flat_map f l = [].
Proof.
  induction l as [|x l IH]; intros H; [reflexivity|]. cbn.
  rewrite (H x (or_introl eq_refl)). apply IH. intros y Hy. apply H.
  now right.
Qed.

(** X11: a quiet run.  When every worker returns a success and no target
    of the run has a loaded state that starts with ["FAIL"], the run (pool
    of positive width) calls [send_email] not at all, logs that there was
    nothing to report, and returns a state in which every target of the run
    is ["OK"] and every other entry is as loaded. *)
Theorem X11_quiet_run
    (cfg : config) (env : run_env) (urls : list string)
    (last : gmap string string) :
  (0 < CONCURRENCY cfg)%Z ->
  (forall fut, In fut (submit_all cfg env urls) ->
     ok (fut_res fut) = true
     /\ forall p, last !! fut_key fut = Some p ->
                  Py.startswith p "FAIL" = false) ->
  exists st tr,
    perform_checks cfg env urls last
    = (Returns st, tr ++ [LogInfo "No failures or recoveries in this run."])
    /\ List.filter is_send tr = []
    /\ (forall k, In k (map fut_key (submit_all cfg env urls)) ->
          st !! k = Some "OK")
    /\ (forall k, ~ In k (map fut_key (submit_all cfg env urls)) ->
          st !! k = last !! k).
Proof.
  intros Hw Hall.
  set (run := classify_all cfg last (dispatch cfg env urls)).
  assert (Hperm : Permutation (dispatch cfg env urls) (submit_all cfg env urls))
    by apply as_completed_perm.
  assert (Hall' : forall fut, In fut (dispatch cfg env urls) ->
            ok (fut_res fut) = true
            /\ forall p, last !! fut_key fut = Some p ->
                         Py.startswith p "FAIL" = false).
  { intros fut Hin. apply Hall. eapply Permutation_in; eauto. }
  assert (Hf : failures run = []).
  { unfold run, classify_all. rewrite fold_failures.
    cbn [init_acc failures app]. apply flat_map_nil. intros fut Hin.
    unfold failure_entries. now rewrite (proj1 (Hall' fut Hin)). }
  assert (Hr : recoveries run = []).
  { unfold run, classify_all. rewrite fold_recoveries.
    cbn [init_acc recoveries app]. apply flat_map_nil. intros fut Hin.
    unfold recovery_entries.
    destruct (Hall' fut Hin) as [-> Hp].
    unfold was_failing. destruct (last !! fut_key fut) as [p|]; [|reflexivity].
    rewrite (Hp p eq_refl). now rewrite andb_false_r. }
  assert (Hrep : reportable run = false)
    by (unfold reportable; now rewrite Hf, Hr).
  exists (updated_state run), (log run).
  split; [|split; [|split]].
  - rewrite perform_checks_returns by exact Hw. fold run.
    unfold report. now rewrite Hrep.
  - apply run_log_no_send.
  - intros k Hk. unfold run, classify_all. apply fold_state_agree.
    + eapply Permutation_in; [|exact Hk].
      apply Permutation_map. symmetry. exact Hperm.
    + intros fut Hin _. unfold new_state_of.
      now rewrite (proj1 (Hall' fut Hin)).
  - intros k Hk. unfold run, classify_all. apply fold_state_other.
    intros Hin. apply Hk. eapply Permutation_in; [|exact Hin].
    apply Permutation_map. exact Hperm.
Qed.

Lemma X11_quiet_run_witness :
  (0 < CONCURRENCY default_config)%Z
  /\ exists st tr,
       perform_checks default_config (env_of (fun _ => world_200) in_order)
         [good_url] ∅
       = (Returns st, tr ++ [LogInfo "No failures or recoveries in this run."])
       /\ st !! good_url = Some "OK".
Proof.
  split; [reflexivity|].
  destruct (X11_quiet_run default_config
              (env_of (fun _ => world_200) in_order) [good_url] ∅ eq_refl)
    as (st & tr & Hp & _ & Hok & _).
  - intros fut [<-|[]]. split; [reflexivity|]. intros p Hp. discriminate Hp.
  - exists st, tr. split; [exact Hp|]. apply Hok. now left.
Defined.

Lemma entries_of_future cfg last fut :
  (length (failure_entries cfg last fut)
   + length (recovery_entries last fut) <= 1)%nat
  /\ (forall u st, In (u, st) (failure_entries cfg last fut) ->
        u = fut_key fut /\ ok (fut_res fut) = false
        /\ st = status_text_of (fut_res fut))
  /\ (forall u p c, In (u, p, c) (recovery_entries last fut) ->
        u = fut_key fut /\ ok (fut_res fut) = true
        /\ last !! u = Some p /\ Py.startswith p "FAIL" = true
        /\ c = status_text_of (fut_res fut)).
Proof.
  unfold failure_entries, recovery_entries, was_failing.
  destruct (ok (fut_res fut)) eqn:Hok.
  - destruct (last !! fut_key fut) as [p|] eqn:Hp; cbn;
      [|repeat split; (lia || intros; contradiction)].
    destruct (Py.truthy p && Py.startswith p "FAIL") eqn:Hf; cbn;
      [|repeat split; (lia || intros; contradiction)].
    apply andb_true_iff in Hf as [_ Hf].
    split; [lia|]. split; [intros u st []|].
    intros u p' c [[= <- <- <-]|[]]. now repeat split.
  - destruct (send_alert_of cfg (last !! fut_key fut)
                (status_text_of (fut_res fut))); cbn.
    + split; [lia|]. split; [|intros u p c []].
      intros u st [[= <- <-]|[]]. now repeat split.
    + repeat split; (lia || intros; contradiction).
Qed.

(** X12: every URL of the list gives at most one entry of the report, a
    failure or a recovery: the two lists together are never longer than the
    list of URLs.  A failure entry is the target of a failing result with its
    status text; a recovery entry is the target of a succeeding result, with
    its loaded state, which starts with ["FAIL"], and its status text. *)
Theorem X12_entries_bounded
    (cfg : config) (env : run_env) (urls : list string)
    (last : gmap string string) :
  let futs := dispatch cfg env urls in
  let run := classify_all cfg last futs in
  (length (failures run) + length (recoveries run) <= length urls)%nat
  /\ (forall u st, In (u, st) (failures run) ->
        exists fut, In fut futs /\ u = fut_key fut
                    /\ ok (fut_res fut) = false
                    /\ st = status_text_of (fut_res fut))
  /\ (forall u p c, In (u, p, c) (recoveries run) ->
        exists fut, In fut futs /\ u = fut_key fut
                    /\ ok (fut_res fut) = true
                    /\ last !! u = Some p /\ Py.startswith p "FAIL" = true
                    /\ c = status_text_of (fut_res fut)).
Proof.
  intros futs run. unfold run, classify_all. clear run.
  rewrite fold_failures, fold_recoveries.
  cbn [init_acc failures recoveries app].
  split; [|split].
  - rewrite <- (submit_all_length cfg env urls).
    rewrite <- (Permutation_length (as_completed_perm (finish_at env)
                                      (submit_all cfg env urls))).
    fold (dispatch cfg env urls). fold futs. clearbody futs.
    induction futs as [|fut l IH]; [cbn; lia|].
    cbn [flat_map length]. rewrite !length_app.
    destruct (entries_of_future cfg last fut) as [Hle _]. lia.
  - intros u st Hin. apply in_flat_map in Hin as (fut & Hf & Hin).
    exists fut. split; [exact Hf|].
    now apply (entries_of_future cfg last fut).
  - intros u p c Hin. apply in_flat_map in Hin as (fut & Hf & Hin).
    exists fut. split; [exact Hf|].
    now apply (entries_of_future cfg last fut).
Qed.

(** ** The per-URL details *)

Lemma dict_set_keys {V} (d : list (string * V)) k v k' :
  In k' (map fst (dict_set d k v)) <-> k' = k \/ In k' (map fst d).
Proof.
  induction d as [|[k0 v0] d IH]; cbn.
  - intuition congruence.
  - destruct (String.eqb_spec k0 k) as [->|Hne]; cbn.
    + intuition congruence.
    + rewrite IH. intuition congruence.
Qed.

Lemma dict_set_nodup {V} (d : list (string * V)) k v :
  NoDup (map fst d) -> NoDup (map fst (dict_set d k v)).
Proof.
  induction d as [|[k0 v0] d IH]; cbn; intros Hnd.
  - apply NoDup_singleton.
  - apply NoDup_cons in Hnd as [Hk0 Hnd].
    destruct (String.eqb_spec k0 k) as [->|Hne]; cbn.
    + apply NoDup_cons. now split.
    + apply NoDup_cons. split; [|now apply IH].
      rewrite list_elem_of_In, dict_set_keys. rewrite list_elem_of_In in Hk0.
      intros [Heq|Hin]; [congruence|contradiction].
Qed.

Lemma dict_get_set {V} (d : list (string * V)) k v k' :
  dict_get (dict_set d k v) k'
  = if String.eqb k k' then Some v else dict_get d k'.
Proof.
  induction d as [|[k0 v0] d IH]; cbn.
  - now destruct (String.eqb k k').
  - destruct (String.eqb_spec k0 k) as [->|Hne]; cbn.
    + now destruct (String.eqb k k').
    + destruct (String.eqb_spec k0 k') as [->|Hne'].
      * destruct (String.eqb_spec k k'); [congruence|reflexivity].
      * exact IH.
Qed.

Lemma fold_details_snoc cfg last l fut acc :
  details (fold_left (process_future cfg last) (l ++ [fut]) acc)
  = dict_set (details (fold_left (process_future cfg last) l acc))
      (fut_key fut) (detail_of fut).
Proof.
  rewrite fold_left_app. cbn [fold_left].
  now destruct (process_future_fields cfg last
                  (fold_left (process_future cfg last) l acc) fut)
    as (_ & _ & _ & -> & _).
Qed.

(** X13: after the loop, [details] holds exactly one entry for every
    distinct target of the run and for nothing else; each entry is the one
    written for some future of that target (its status text, ping flag and
    raw result), and when the targets of the run are distinct, the entry of
    each future's target is that future's. *)
Theorem X13_details_cover_targets
    (cfg : config) (last : gmap string string) (completed : list future) :
  let ds := details (classify_all cfg last completed) in
  NoDup (map fst ds)
  /\ (forall k, In k (map fst ds) <-> In k (map fut_key completed))
  /\ (forall k d, dict_get ds k = Some d ->
        exists fut, In fut completed /\ fut_key fut = k /\ d = detail_of fut)
  /\ (NoDup (map fut_key completed) ->
      forall fut, In fut completed ->
        dict_get ds (fut_key fut) = Some (detail_of fut)).
Proof.
  cbv zeta. unfold classify_all.
  induction completed as [|fut l IH] using rev_ind.
  - cbn. repeat split; try (intros; contradiction); try discriminate.
    apply NoDup_nil_2.
  - destruct IH as (IHn & IHk & IHg & IHd).
    rewrite fold_details_snoc. split; [|split; [|split]].
    + now apply dict_set_nodup.
    + intros k. rewrite dict_set_keys, IHk, map_app, in_app_iff. cbn.
      intuition congruence.
    + intros k d. rewrite dict_get_set.
      destruct (String.eqb_spec (fut_key fut) k) as [<-|Hne].
      * intros [= <-]. exists fut. split; [|now split].
        apply in_app_iff. right. now left.
      * intros Hd. destruct (IHg k d Hd) as (f & Hf & Hk & ->).
        exists f. split; [|now split]. apply in_app_iff. now left.
    + intros Hnd f Hf. rewrite dict_get_set.
      rewrite map_app in Hnd. apply NoDup_app in Hnd as (Hnd1 & Hdis & _).
      destruct (String.eqb_spec (fut_key fut) (fut_key f)) as [Heq|Hne].
      * apply in_app_iff in Hf as [Hf|[<-|[]]]; [|reflexivity].
        exfalso. apply (Hdis (fut_key f)).
        -- apply list_elem_of_In, in_map, Hf.
        -- rewrite <- Heq. cbn. left.
      * apply in_app_iff in Hf as [Hf|[<-|[]]]; [|congruence].
        now apply IHd.
Qed.

Lemma X13_details_cover_targets_witness :
  NoDup (map fut_key [fut_good good_url; fut_bad bad_url])
  /\ dict_get
       (details (classify_all default_config ∅
                   [fut_good good_url; fut_bad bad_url]))
       bad_url
     = Some (detail_of (fut_bad bad_url)).
Proof.
  assert (Hnd : NoDup (map fut_key [fut_good good_url; fut_bad bad_url])).
  { apply (bool_decide_unpack
             (NoDup (map fut_key [fut_good good_url; fut_bad bad_url]))).
    vm_compute. exact I. }
  split; [exact Hnd|].
  destruct (X13_details_cover_targets default_config ∅
              [fut_good good_url; fut_bad bad_url]) as (_ & _ & _ & H).
  apply (H Hnd (fut_bad bad_url)). right. now left.
Defined.

(** ** The notifier *)

Lemma worker_event_quiet cfg url ev :
  worker_event cfg url ev ->
  is_send ev = false /\ is_delivery ev = false /\ is_write ev = false.
Proof. destruct ev; cbn; intros H; try contradiction; now repeat split. Qed.

Lemma check_url_worker_events cfg w url :
  Forall (worker_event cfg url) (snd (check_url cfg w url)).
Proof.
  rewrite check_url_unfold.
  destruct (http_check_worker_events cfg (pw_net w) url) as (Hev & _ & _).
  destruct (pw_hostname w); cbn [snd]; constructor; [exact I|exact Hev].
Qed.

(** The loop of a run neither delivers mail nor writes the state file. *)
Lemma run_log_quiet cfg env urls last ev :
  In ev (log (classify_all cfg last (dispatch cfg env urls))) ->
  is_delivery ev = false /\ is_write ev = false.
Proof.
  unfold classify_all. rewrite fold_log. cbn [init_acc log app].
  intros Hev. apply in_flat_map in Hev as (fut & Hf & Hev).
  assert (Hin : In fut (submit_all cfg env urls))
    by (eapply Permutation_in; [apply as_completed_perm | exact Hf]).
  clear Hf. revert Hin. unfold submit_all. generalize (world_of env).
  induction urls as [|u urls IH]; intros wo Hin; [destruct Hin|].
  cbn [imap] in Hin. destruct Hin as [<-|Hin]; [|exact (IH _ Hin)].
  pose proof (check_url_worker_events cfg (wo 0%nat) u) as Hw.
  destruct (check_url cfg (wo 0%nat) u) as [r tr]. cbn [snd] in Hw.
  cbn [f_trace] in Hev. apply in_app_iff in Hev as [Hev|Hev].
  - rewrite List.Forall_forall in Hw.
    now apply (worker_event_quiet cfg u ev (Hw ev Hev)).
  - unfold fut_log, future_result in Hev. cbn in Hev.
    destruct r as [[u' res]|e]; [destruct Hev|].
    destruct Hev as [<-|[]]. now split.
Qed.


(** ** The notifier's guard *)

Lemma split_on_no_sep p :
  occurs comma p = false -> split_on comma p = [p].
Proof.
  induction p as [|c p IH]; [reflexivity|]. cbn.
  intros H. apply orb_false_iff in H as [Hc Hp].
  rewrite Hc, (IH Hp). reflexivity.
Qed.

Lemma append_empty s : EmptyString +:+ s = s.
Proof. reflexivity. Qed.

Lemma append_cons c p s : String c p +:+ s = String c (p +:+ s).
Proof. reflexivity. Qed.

Lemma split_on_piece p rest :
  occurs comma p = false ->
  split_on comma (p +:+ String comma rest) = p :: split_on comma rest.
Proof.
  induction p as [|c p IH]; intros H.
  - rewrite append_empty. cbn [split_on]. now rewrite Ascii.eqb_refl.
  - cbn [occurs] in H. apply orb_false_iff in H as [Hc Hp].
    rewrite append_cons. cbn [split_on]. now rewrite Hc, (IH Hp).
Qed.

(** Splitting undoes joining, for pieces without the separator. *)
Lemma split_on_join parts :
  parts <> [] ->
  Forall (fun p => occurs comma p = false) parts ->
  split_on comma (String.concat comma_string parts) = parts.
Proof.
  intros Hne Hall. induction Hall as [|p parts Hp Hall IH]; [congruence|].
  destruct parts as [|q parts].
  - cbn [String.concat]. now apply split_on_no_sep.
  - cbn [String.concat]. unfold comma_string at 1.
    rewrite append_cons, append_empty.
    rewrite (split_on_piece p _ Hp). f_equal. apply IH. discriminate.
Qed.

(** X15: [EMAIL_TO] as a comma-separated list.  When addresses that
    hold no comma are joined with commas, the recipients of [send_email] are
    these addresses stripped, in order, without the blank ones. *)
Theorem X15_recipients_of_joined (parts : list string) :
  parts <> [] ->
  Forall (fun p => occurs comma p = false) parts ->
  recipients_of (String.concat comma_string parts)
  = map Py.strip (List.filter (fun r => Py.truthy (Py.strip r)) parts).
Proof.
  intros Hne Hall. unfold recipients_of. now rewrite split_on_join.
Qed.

Lemma X15_recipients_of_joined_witness :
  recipients_of "ops@a.example, ,dev@b.example "
  = ["ops@a.example"; "dev@b.example"].
Proof.
  apply (X15_recipients_of_joined ["ops@a.example"; " "; "dev@b.example "]).
  - discriminate.
  - repeat constructor.
Defined.

(** X16: the recipients of [send_email] are never empty strings and carry
    no blank at either end; and the guard lets a mail through exactly when
    user, password and sender are non-empty and [EMAIL_TO] has a piece that
    is not blank. *)
Theorem X16_smtp_guard
    (SMTP_USER SMTP_PASS EMAIL_FROM EMAIL_TO : string) :
  Forall (fun r => r <> EmptyString /\ stripped r) (recipients_of EMAIL_TO)
  /\ (smtp_ready SMTP_USER SMTP_PASS EMAIL_FROM EMAIL_TO = true <->
      SMTP_USER <> EmptyString /\ SMTP_PASS <> EmptyString
      /\ EMAIL_FROM <> EmptyString
      /\ exists r, In r (split_on comma EMAIL_TO)
                   /\ Py.strip r <> EmptyString).
Proof.
  split.
  - unfold recipients_of. apply List.Forall_forall. intros r Hr.
    apply in_map_iff in Hr as (x & <- & Hx). apply filter_In in Hx as [_ Hx].
    split; [now apply truthy_nonempty | apply strip_idem].
  - assert (Hrec : match recipients_of EMAIL_TO with
                   | [] => true
                   | _ :: _ => false
                   end = false
                   <-> exists r, In r (split_on comma EMAIL_TO)
                                 /\ Py.strip r <> EmptyString).
    { unfold recipients_of.
      destruct (List.filter (fun r => Py.truthy (Py.strip r))
                  (split_on comma EMAIL_TO)) as [|x l] eqn:Ef; cbn.
      - split; [discriminate|]. intros (r & Hr & Hne). exfalso.
        assert (Hin : In r (List.filter (fun r => Py.truthy (Py.strip r))
                              (split_on comma EMAIL_TO)))
          by (apply filter_In; split; [exact Hr|now apply truthy_nonempty]).
        rewrite Ef in Hin. destruct Hin.
      - split; [|reflexivity]. intros _. exists x.
        assert (Hin : In x (List.filter (fun r => Py.truthy (Py.strip r))
                              (split_on comma EMAIL_TO)))
          by (rewrite Ef; now left).
        apply filter_In in Hin as [Hin Ht].
        split; [exact Hin|now apply truthy_nonempty]. }
    unfold smtp_ready.
    rewrite negb_true_iff, !orb_false_iff, !negb_false_iff,
      !truthy_nonempty, Hrec.
    tauto.
Qed.

(** ** Faults at start-up and in the loop *)

Lemma load_state_quiet f :
  exists st, fst (load_state f) = Returns st
  /\ List.filter is_probe (snd (load_state f)) = []
  /\ List.filter is_write (snd (load_state f)) = []
  /\ List.filter is_send (snd (load_state f)) = [].
Proof. destruct f; eexists; cbn; now repeat split. Qed.

Lemma load_urls_no_write path f :
  List.filter is_write (snd (load_urls path f)) = [].
Proof. now destruct f. Qed.



(** X18: a pool width of zero or less.  When there is at least one
    target, the first run raises when it builds the pool: [main] crashes
    with that exception, in either mode, and nothing was probed, sent or
    written to the state file. *)
Theorem X18_nonpositive_width_crashes
    (cfg : config) (run_once : bool) (first : cycle) (later : list cycle)
    (u : string) (urls : list string) (tr0 : list event) :
  load_urls (URLS_FILE cfg) (c_urls first) = (Returns (u :: urls), tr0) ->
  (CONCURRENCY cfg <= 0)%Z ->
  fst (main cfg run_once first later)
  = Crashed "max_workers must be greater than 0"
  /\ List.filter is_probe (snd (main cfg run_once first later)) = []
  /\ List.filter is_send (snd (main cfg run_once first later)) = []
  /\ List.filter is_write (snd (main cfg run_once first later)) = [].
Proof.
  intros Hl Hw. unfold main. rewrite Hl.
  destruct (load_urls_quiet (URLS_FILE cfg) (c_urls first)) as [Hp Hs].
  pose proof (load_urls_no_write (URLS_FILE cfg) (c_urls first)) as Hwr.
  rewrite Hl in Hp, Hs, Hwr. cbn [snd] in Hp, Hs, Hwr.
  destruct (load_state_quiet (c_state first)) as (st & Hst & Hp1 & Hw1 & Hs1).
  destruct (load_state (c_state first)) as [r tr1]. cbn [fst snd] in *.
  subst r. cbn [bind].
  rewrite (perform_checks_no_pool cfg (c_env first) (u :: urls) st Hw).
  cbn [bind fst snd]. rewrite !List.filter_app, Hp, Hs, Hwr, Hp1, Hw1, Hs1.
  now repeat split.
Qed.

Lemma X18_nonpositive_width_crashes_witness :
  load_urls (URLS_FILE (with_width default_config 0)) (Content [good_url])
  = (Returns [good_url], [])
  /\ (CONCURRENCY (with_width default_config 0) <= 0)%Z
  /\ fst (main (with_width default_config 0) true
            (cycle_of (Content [good_url]) (fun _ => world_200)) [])
     = Crashed "max_workers must be greater than 0".
Proof.
  split; [reflexivity|]. split; [cbn; lia|].
  apply (X18_nonpositive_width_crashes (with_width default_config 0) true
           (cycle_of (Content [good_url]) (fun _ => world_200)) []
           good_url [] []); [reflexivity | cbn; lia].
Defined.

(** X19: the state file is read at start-up only.  The iterations of the
    [while] loop work on the state in memory: what the state file holds when
    they run makes no difference to what they do. *)
Theorem X19_state_file_read_once
    (cfg : config) (run_once : bool) (first : cycle) (later : list cycle)
    (g : cycle -> file (gmap string string)) (state : gmap string string) :
  daemon_loop cfg (map (fun c => with_state_file c (g c)) later) state
  = daemon_loop cfg later state
  /\ main cfg run_once first (map (fun c => with_state_file c (g c)) later)
     = main cfg run_once first later.
Proof.
  assert (Hd : forall st,
             daemon_loop cfg (map (fun c => with_state_file c (g c)) later) st
             = daemon_loop cfg later st).
  { induction later as [|c cs IH]; intros st; [reflexivity|].
    cbn [map daemon_loop].
    change (run_cycle cfg (with_state_file c (g c)) st)
      with (run_cycle cfg c st).
    destruct (run_cycle cfg c st) as [[st'|e] tr]; now rewrite IH. }
  split; [apply Hd|]. unfold main.
  destruct (load_urls (URLS_FILE cfg) (c_urls first)) as [[[|u urls]|e] tr];
    try reflexivity.
  destruct (state <- load_state (c_state first);;
            state0 <- perform_checks cfg (c_env first) (u :: urls) state;;
            save_state (c_write_fault first) state0;;; ret state0)
    as [[st|e] tr1]; [|reflexivity].
  destruct run_once; [reflexivity|]. now rewrite Hd.
Qed.

(** ** What a run writes and how much it probes *)

Lemma report_no_write cfg env acc :
  List.filter is_write (snd (report cfg env acc)) = []
  /\ List.filter is_probe (snd (report cfg env acc)) = [].
Proof.
  unfold report, send_email, bind, try_except, emit, raise.
  destruct (reportable acc); [|now split]. cbn.
  destruct (SMTP_CONFIGURED cfg); cbn; [|now split].
  destruct (smtp_fault env); now split.
Qed.

Lemma run_log_no_write cfg env urls last :
  List.filter is_write (log (classify_all cfg last (dispatch cfg env urls)))
  = [].
Proof.
  apply filter_none. apply forallb_forall. intros ev Hev.
  now rewrite (proj2 (run_log_quiet cfg env urls last ev Hev)).
Qed.

(** X20: a single run over at least one target (pool of positive width)
    touches the state file once, as its last step: when the write succeeds,
    the trace ends with the write of exactly the state that the loop built
    from the loaded state, and there is no other write; when the write
    fails, nothing is written and the trace ends with the log record of the
    failure.  In both cases the process exits normally. *)
Theorem X20_state_written_last
    (cfg : config) (first : cycle) (later : list cycle)
    (u : string) (urls : list string) (tr0 : list event) :
  load_urls (URLS_FILE cfg) (c_urls first) = (Returns (u :: urls), tr0) ->
  (0 < CONCURRENCY cfg)%Z ->
  exists last tr,
    fst (load_state (c_state first)) = Returns last
    /\ List.filter is_write tr = []
    /\ main cfg true first later
       = (Exited,
          tr ++ [match c_write_fault first with
                 | None =>
                     WriteState
                       (updated_state
                          (classify_all cfg last
                             (dispatch cfg (c_env first) (u :: urls))))
                 | Some e => LogException "Failed to write state file" e
                 end]).
Proof.
  intros Hl Hw.
  pose proof (load_urls_no_write (URLS_FILE cfg) (c_urls first)) as Hwr.
  rewrite Hl in Hwr. cbn [snd] in Hwr.
  destruct (load_state_quiet (c_state first)) as (last & Hst & _ & Hw1 & _).
  destruct (load_state (c_state first)) as [r tr1] eqn:Els.
  cbn [fst snd] in Hst, Hw1. subst r.
  set (run := classify_all cfg last (dispatch cfg (c_env first) (u :: urls))).
  exists last, (tr0 ++ tr1 ++ log run ++ snd (report cfg (c_env first) run)).
  split; [reflexivity|]. split.
  - rewrite !List.filter_app, Hwr, Hw1.
    unfold run. rewrite run_log_no_write.
    now rewrite (proj1 (report_no_write cfg (c_env first) _)).
  - unfold main. rewrite Hl, Els. cbn [bind].
    rewrite (perform_checks_returns cfg (c_env first) (u :: urls) last Hw).
    fold run. cbn [bind]. rewrite save_state_returns. cbn [ret].
    destruct (c_write_fault first); cbn [bind ret app];
      rewrite ?app_nil_r, <- !app_assoc; reflexivity.
Qed.

Lemma X20_state_written_last_witness :
  load_urls (URLS_FILE default_config) (Content [good_url])
  = (Returns [good_url], [])
  /\ (0 < CONCURRENCY default_config)%Z
  /\ fst (main default_config true
            (cycle_of (Content [good_url]) (fun _ => world_200)) [])
     = Exited.
Proof.
  split; [reflexivity|]. split; [reflexivity|].
  destruct (X20_state_written_last default_config
              (cycle_of (Content [good_url]) (fun _ => world_200)) []
              good_url [] [] eq_refl eq_refl) as (last & tr & _ & _ & ->).
  reflexivity.
Defined.

Lemma count_flat_map_perm {A B} (p : B -> bool) (g : A -> list B)
    (l l' : list A) :
  Permutation l l' ->
  length (List.filter p (flat_map g l))
  = length (List.filter p (flat_map g l')).
Proof.
  induction 1 as [|x l l' _ IH|x y l|l l' l'' _ IH1 _ IH2]; cbn [flat_map].
  - reflexivity.
  - rewrite !List.filter_app, !length_app. now rewrite IH.
  - rewrite !List.filter_app, !length_app. lia.
  - now rewrite IH1.
Qed.

Lemma http_check_trace_positive cfg net url timeout retries :
  (0 < retries)%Z ->
  exists k,
    snd (http_check cfg net url timeout retries)
    = retry_trace cfg url timeout k ++ [HttpGet url timeout].
Proof.
  intros Hpos.
  destruct (http_check_cases cfg net url timeout retries)
    as [[Hle _]|(k & _ & Htr & _)]; [lia|]. now exists k.
Qed.

Lemma submitted_log_no_probe (c : M (string * ProbeRes)) (u : string) :
  List.filter is_ping
    (fut_log (let (r, t) := c in
              {| f_url := u; f_result := r; f_trace := t |})) = []
  /\ List.filter is_request
       (fut_log (let (r, t) := c in
                 {| f_url := u; f_result := r; f_trace := t |})) = [].
Proof. destruct c as [[[u' res]|e] t]; now split. Qed.

(** Pings and requests of one submitted future. *)
Lemma future_probe_budget cfg w u :
  let tr := snd (check_url cfg w u)
            ++ fut_log (let (r, t) := check_url cfg w u in
                        {| f_url := u; f_result := r; f_trace := t |}) in
  (length (List.filter is_ping tr) <= 1)%nat
  /\ (requests_made tr <= Z.to_nat (HTTP_RETRIES cfg))%nat
  /\ ((exists h, pw_hostname w = Returns h) ->
      length (List.filter is_ping tr) = 1%nat
      /\ ((0 < HTTP_RETRIES cfg)%Z -> (1 <= requests_made tr)%nat)).
Proof.
  cbv zeta. unfold requests_made.
  destruct (submitted_log_no_probe (check_url cfg w u) u) as [Hlp Hlr].
  rewrite !List.filter_app, Hlp, Hlr, !app_nil_r.
  rewrite check_url_unfold.
  destruct (http_check_worker_events cfg (pw_net w) u) as (_ & Hnp & Hb).
  destruct (pw_hostname w) as [h|e]; cbn [snd].
  - cbn [List.filter is_ping is_request]. rewrite Hnp.
    split; [cbn; lia|]. split; [exact Hb|].
    intros _. split; [reflexivity|]. intros Hpos.
    destruct (http_check_trace_positive cfg (pw_net w) (Py.strip u)
                (CHECK_TIMEOUT cfg) (HTTP_RETRIES cfg) Hpos) as (k & ->).
    fold (requests_made
            (retry_trace cfg (Py.strip u) (CHECK_TIMEOUT cfg) k
             ++ [HttpGet (Py.strip u) (CHECK_TIMEOUT cfg)])).
    rewrite requests_made_retry_trace. cbn. lia.
  - cbn. split; [lia|]. split; [lia|].
    intros [h Hh]. discriminate Hh.
Qed.

Lemma f_trace_submitted (c : M (string * ProbeRes)) (u : string) :
  f_trace (let (r, t) := c in {| f_url := u; f_result := r; f_trace := t |})
  = snd c.
Proof. now destruct c. Qed.

Lemma submitted_probe_budget cfg (wo : nat -> probe_world) urls :
  let tr :=
    flat_map (fun fut => f_trace fut ++ fut_log fut)
      (imap (fun i u =>
               let (r, t) := check_url cfg (wo i) u in
               {| f_url := u; f_result := r; f_trace := t |}) urls) in
  (length (List.filter is_ping tr) <= length urls)%nat
  /\ (requests_made tr <= length urls * Z.to_nat (HTTP_RETRIES cfg))%nat
  /\ ((forall i, exists h, pw_hostname (wo i) = Returns h) ->
      length (List.filter is_ping tr) = length urls
      /\ ((0 < HTTP_RETRIES cfg)%Z -> (length urls <= requests_made tr)%nat)).
Proof.
  cbv zeta. revert wo. induction urls as [|u urls IH]; intros wo.
  - cbn. repeat split; lia.
  - cbn [imap flat_map length]. unfold requests_made in *.
    rewrite !(List.filter_app _ (_ ++ _)), !length_app.
    rewrite f_trace_submitted.
    destruct (future_probe_budget cfg (wo 0%nat) u) as (Hp & Hr & Hex).
    cbv zeta in Hp, Hr, Hex. unfold requests_made in Hr, Hex.
    destruct (IH (wo ∘ S)) as (IHp & IHr & IHex).
    unfold compose in *. cbv beta in *.
    split; [lia|]. split; [lia|].
    intros Hall. destruct (Hex (Hall 0%nat)) as [Hp1 Hr1].
    destruct (IHex (fun i => Hall (S i))) as [IHp1 IHr1].
    split; [lia|]. intros Hpos.
    specialize (Hr1 Hpos). specialize (IHr1 Hpos). lia.
Qed.

Lemma report_no_probe cfg env acc :
  List.filter is_ping (snd (report cfg env acc)) = []
  /\ List.filter is_request (snd (report cfg env acc)) = [].
Proof.
  unfold report, send_email, bind, try_except, emit, raise.
  destruct (reportable acc); [|now split]. cbn.
  destruct (SMTP_CONFIGURED cfg); cbn; [|now split].
  destruct (smtp_fault env); now split.
Qed.

(** X21: the probe budget of a run.  A run pings at most once and
    requests at most [HTTP_RETRIES] times per URL of its list, whatever the
    network and the pool do.  With a pool of positive width and URLs that
    all parse, every URL is pinged exactly once, and (for a positive attempt
    limit) requested at least once. *)
Theorem X21_probe_budget
    (cfg : config) (env : run_env) (urls : list string)
    (last : gmap string string) :
  let tr := snd (perform_checks cfg env urls last) in
  (length (List.filter is_ping tr) <= length urls)%nat
  /\ (requests_made tr <= length urls * Z.to_nat (HTTP_RETRIES cfg))%nat
  /\ ((0 < CONCURRENCY cfg)%Z ->
      (forall i, exists h, pw_hostname (world_of env i) = Returns h) ->
      length (List.filter is_ping tr) = length urls
      /\ ((0 < HTTP_RETRIES cfg)%Z -> (length urls <= requests_made tr)%nat)).
Proof.
  cbv zeta. destruct (Z_lt_le_dec 0 (CONCURRENCY cfg)) as [Hw|Hw].
  - rewrite (perform_checks_returns cfg env urls last Hw). cbn [snd].
    unfold requests_made. rewrite !List.filter_app, !length_app.
    destruct (report_no_probe cfg env
                (classify_all cfg last (dispatch cfg env urls))) as [-> ->].
    cbn [length]. rewrite !Nat.add_0_r.
    unfold classify_all. rewrite fold_log. cbn [init_acc log app].
    unfold dispatch.
    rewrite (count_flat_map_perm is_ping _ _ _
               (as_completed_perm (finish_at env) (submit_all cfg env urls))).
    rewrite (count_flat_map_perm is_request _ _ _
               (as_completed_perm (finish_at env) (submit_all cfg env urls))).
    destruct (submitted_probe_budget cfg (world_of env) urls)
      as (Hp & Hr & Hex).
    cbv zeta in Hp, Hr, Hex. unfold requests_made in Hr, Hex.
    split; [exact Hp|]. split; [exact Hr|]. intros _. exact Hex.
  - rewrite (perform_checks_no_pool cfg env urls last Hw). cbn.
    repeat split; lia.
Qed.

Lemma X21_probe_budget_witness :
  let tr := snd (perform_checks default_config
                   (env_of (first_then world_200 world_timeout) in_order)
                   [good_url; bad_url] ∅) in
  (0 < CONCURRENCY default_config)%Z
  /\ length (List.filter is_ping tr) = 2%nat
  /\ (2 <= requests_made tr)%nat.
Proof.
  intros tr. split; [reflexivity|].
  destruct (X21_probe_budget default_config
              (env_of (first_then world_200 world_timeout) in_order)
              [good_url; bad_url] ∅) as (_ & _ & H).
  destruct H as [Hp Hr]; [reflexivity | |].
  - intros [|i]; eexists; reflexivity.
  - split; [exact Hp|]. apply Hr. reflexivity.
Defined.
